(** * sispo.compression: the [Compressor] class of [compression.py]

    A shallow embedding of [src/sispo/compression/compression.py].

    - Python values that a settings dictionary holds are the inductive
      [pyval]; a dictionary is a [gmap string pyval].
    - Dictionaries are mutable objects that the caller and the
      [Compressor] share, so they live in a store ([heap]) and are
      passed by reference ([loc]).
    - A method is a computation in the state-and-exception monad [M]
      over a [World]: the store, the file system and the attributes of
      [self].  A raised exception keeps every mutation done before it.
    - The libraries the module imports ([bz2], [gzip], [lzma], [zlib],
      [cv2], the float arithmetic of [numpy], [utils], directory
      listing) and the failures of the built-in [open] are a parameter
      [Libs]; a codec is called on the array object itself, as the
      source does.  The buffer operations of [numpy] that the
      byte-stream decoder relies on ([frombuffer], [reshape]) are
      modelled in [Module np], the [/] and [str] of [pathlib] on POSIX
      in [path_div] and [path_str].
    - The source has one exception class of its own,
      [CompressionError]; a missing key, a bad operand and a buffer of
      the wrong size surface as Python's [KeyError], [TypeError] and
      numpy's [ValueError].  The names UnsupportedAlgorithm,
      InvalidSetting and ReconstructionError of the specification are
      its labels for these failures.                                  *)

From stdpp Require Import gmap strings list fin_maps.
From Stdlib Require Import NArith ZArith Lia Strings.Ascii Strings.Byte.
From Stdlib Require Floats.SpecFloat.

Set Warnings "-register-all".

Open Scope string_scope.

(** ** Python values and exceptions *)

(** A Python [float]: an IEEE 754 binary64 number. *)
Abbreviation float := SpecFloat.spec_float.

(** The values a settings mapping holds: what a configuration file
    gives ([None], booleans, integers, floats, strings, lists and
    dictionaries with string keys), and tuples and sets. *)
Inductive pyval : Type :=
  | VNone
  | VBool (b : bool)
  | VInt (n : Z)
  | VFloat (x : float)
  | VStr (s : string)
  | VTuple (items : list pyval)
  | VList (items : list pyval)
  | VDict (items : list (string * pyval))
  | VSet (items : list pyval).

(** [class CompressionError(RuntimeError)] and the built-in exceptions
    the module can raise; [OSError] stands for the failures of [open]
    and [write] that have no class of their own here.  [LibraryError]
    stands for whatever an imported codec raises; [SystemError] is
    raised by the model on a reference that is not in the store (no
    Python program reaches it). *)
Inductive exn : Type :=
  | CompressionError (msg : string)
  | KeyError (key : string)
  | TypeError (msg : string)
  | ValueError (msg : string)
  | AttributeError (name : string)
  | IndexError (msg : string)
  | OverflowError (msg : string)
  | FileNotFoundError (path : string)
  | IsADirectoryError (path : string)
  | PermissionError (path : string)
  | OSError (msg : string)
  | LibraryError (msg : string)
  | SystemError (msg : string).

Inductive result (A : Type) : Type :=
  | Ok (a : A)
  | Raise (e : exn).
Arguments Ok {A} a.
Arguments Raise {A} e.

Abbreviation bytes := (list byte).
Abbreviation dict := (gmap string pyval).
Abbreviation loc := positive.

(** [isinstance(v, bool)] *)
Definition isinstance_bool (v : pyval) : bool :=
  match v with VBool _ => true | _ => false end.

(** [isinstance(v, int)]: [bool] is a subclass of [int]. *)
Definition isinstance_int (v : pyval) : bool :=
  match v with VInt _ | VBool _ => true | _ => false end.

(** [bool(s)] for a string: the empty string is the only false one. *)
Definition str_truthy (s : string) : bool :=
  match s with EmptyString => false | String _ _ => true end.

Fixpoint str_repeat (s : string) (n : nat) : string :=
  match n with O => "" | S n' => s ++ str_repeat s n' end.

Fixpoint tuple_repeat (l : list pyval) (n : nat) : list pyval :=
  match n with O => [] | S n' => l ++ tuple_repeat l n' end.

(** [float(k)] for an int [k], rounded to nearest even; an int beyond
    the range of binary64 does not convert. *)
Definition float_of_int (k : Z) : result float :=
  match SpecFloat.binary_normalize 53 1024 k 0 false with
  | SpecFloat.S754_infinity _ =>
      Raise (OverflowError "int too large to convert to float")
  | x => Ok x
  end.

(** [v * k] for an int [k]: product of ints (a bool counts as 0 or 1),
    product of floats after [k] is converted, repetition of a string,
    a tuple or a list, [TypeError] on [None], a dictionary or a set. *)
Definition py_mul_int (v : pyval) (k : Z) : result pyval :=
  match v with
  | VInt n => Ok (VInt (n * k))
  | VBool b => Ok (VInt ((if b then 1 else 0) * k))
  | VFloat x =>
      match float_of_int k with
      | Ok y => Ok (VFloat (SpecFloat.SFmul 53 1024 x y))
      | Raise e => Raise e
      end
  | VStr s => Ok (VStr (str_repeat s (Z.to_nat k)))
  | VTuple l => Ok (VTuple (tuple_repeat l (Z.to_nat k)))
  | VList l => Ok (VList (tuple_repeat l (Z.to_nat k)))
  | VNone => Raise (TypeError "unsupported operand type(s) for *: 'NoneType' and 'int'")
  | VDict _ => Raise (TypeError "unsupported operand type(s) for *: 'dict' and 'int'")
  | VSet _ => Raise (TypeError "unsupported operand type(s) for *: 'set' and 'int'")
  end.

(** [str.lower()], on ASCII letters. *)
Definition ascii_lower (c : ascii) : ascii :=
  let n := nat_of_ascii c in
  if (65 <=? n)%nat && (n <=? 90)%nat then ascii_of_nat (n + 32) else c.

Fixpoint lower (s : string) : string :=
  match s with
  | EmptyString => EmptyString
  | String c s' => String (ascii_lower c) (lower s')
  end.

(** [c in chars] and [s.strip(chars)] *)
Fixpoint str_mem (c : ascii) (chars : string) : bool :=
  match chars with
  | EmptyString => false
  | String c' r => Ascii.eqb c c' || str_mem c r
  end.

Fixpoint lstrip (chars s : string) : string :=
  match s with
  | EmptyString => EmptyString
  | String c r => if str_mem c chars then lstrip chars r else s
  end.

Fixpoint str_rev_onto (s acc : string) : string :=
  match s with
  | EmptyString => acc
  | String c r => str_rev_onto r (String c acc)
  end.

Definition strip (chars s : string) : string :=
  str_rev_onto (lstrip chars (str_rev_onto (lstrip chars s) "")) "".

(** ** Arrays *)

Inductive dtype_t : Type := float32 | uint8.

Definition itemsize (t : dtype_t) : N :=
  match t with float32 => 4 | uint8 => 1 end%N.

(** A C-contiguous [numpy.ndarray]: element type, shape and the raw
    buffer.  Two arrays are bit-for-bit equal when the records are. *)
Record ndarray : Type := mk_ndarray {
  dtype : dtype_t;
  shape : list N;
  data : bytes
}.

Definition nbytes (buf : bytes) : N := N.of_nat (List.length buf).

Module np.

Definition prod (sh : list N) : N := foldr N.mul 1%N sh.

(** [a.size] *)
Definition size (a : ndarray) : N := prod (shape a).

(** [np.frombuffer(buf, dtype=t)]: a one-dimensional view of the
    whole buffer; the length must be a multiple of the item size. *)
Definition frombuffer (buf : bytes) (t : dtype_t) : result ndarray :=
  if (nbytes buf mod itemsize t =? 0)%N
  then Ok (mk_ndarray t [(nbytes buf / itemsize t)%N] buf)
  else Raise (ValueError "buffer size must be a multiple of element size").

(** [a.reshape(sh)]: the same buffer under a shape with as many
    elements. *)
Definition reshape (a : ndarray) (sh : list N) : result ndarray :=
  if (size a =? prod sh)%N
  then Ok (mk_ndarray (dtype a) sh (data a))
  else Raise (ValueError "cannot reshape array into shape").

(** [a.tobytes()], and the buffer a codec reads from an array. *)
Definition tobytes (a : ndarray) : bytes := data a.

End np.

(** Flags of [cv2] (OpenCV's [ImwriteFlags] and [ImreadModes]). *)
Module cv2.
Definition IMWRITE_JPEG_QUALITY : Z := 1.
Definition IMWRITE_JPEG_PROGRESSIVE : Z := 2.
Definition IMWRITE_JPEG_OPTIMIZE : Z := 3.
Definition IMWRITE_JPEG_RST_INTERVAL : Z := 4.
Definition IMWRITE_JPEG_LUMA_QUALITY : Z := 5.
Definition IMWRITE_JPEG_CHROMA_QUALITY : Z := 6.
Definition IMWRITE_PNG_COMPRESSION : Z := 16.
Definition IMREAD_UNCHANGED : Z := -1.
End cv2.

(** ** Paths and files *)

(** [sep.join(parts)] and [s.split(sep)], for a one-character [sep]. *)
Fixpoint str_join (sep : string) (parts : list string) : string :=
  match parts with
  | [] => ""
  | [x] => x
  | x :: r => x ++ sep ++ str_join sep r
  end.

Fixpoint str_split (sep : ascii) (s : string) : list string :=
  match s with
  | EmptyString => [EmptyString]
  | String c r =>
      if Ascii.eqb c sep then EmptyString :: str_split sep r
      else match str_split sep r with
           | x :: xs => String c x :: xs
           | [] => [String c EmptyString]
           end
  end.

(** A [pathlib.Path] on POSIX as the list of its parts; the first part
    of an absolute path is its root, ["/"] or ["//"]. *)
Abbreviation Path := (list string).

Definition is_root (part : string) : bool :=
  String.eqb part "/" || String.eqb part "//".

(** The parts of [Path(s)]: the root when [s] starts with a slash
    (exactly two slashes give the root ["//"]), then the names between
    the slashes, without the empty ones and without ["."]. *)
Definition path_parts (s : string) : Path :=
  let rel := lstrip "/" s in
  let names :=
    List.filter (fun x => negb (String.eqb x "" || String.eqb x "."))
      (str_split "/" rel) in
  match (String.length s - String.length rel)%nat with
  | 0%nat => names
  | 2%nat => "//" :: names
  | _ => "/" :: names
  end.

(** [p / name]: an absolute [name] replaces [p]. *)
Definition path_div (p : Path) (name : string) : Path :=
  match path_parts name with
  | x :: r => if is_root x then x :: r else (p ++ x :: r)%list
  | [] => p
  end.

(** [str(p)] *)
Definition path_str (p : Path) : string :=
  match p with
  | [] => "."
  | x :: r => if is_root x then x ++ str_join "/" r else str_join "/" p
  end.

(** The regular files the process can read, by the path they are
    opened with. *)
Abbreviation FS := (gmap string bytes).

(** ** The imported libraries *)

(** A codec called as [func(img, **kwargs)] on the array object, and
    its inverse, called on a byte string. *)
Definition compress_fn : Type := ndarray -> dict -> result bytes.
Definition decompress_fn : Type := bytes -> result bytes.

Record Libs : Type := {
  bz2_compress : compress_fn;   bz2_decompress : decompress_fn;
  gzip_compress : compress_fn;  gzip_decompress : decompress_fn;
  lzma_compress : compress_fn;  lzma_decompress : decompress_fn;
  zlib_compress : compress_fn;  zlib_decompress : decompress_fn;
  (** [cv2.imencode(ext, img, params)] returns [(retval, buf)] *)
  cv2_imencode : pyval -> ndarray -> pyval -> result (bool * ndarray);
  (** [cv2.imdecode(buf, flags)] returns an array, or [None] *)
  cv2_imdecode : ndarray -> Z -> result (option ndarray);
  (** [(img * 255).astype(np.uint8)] *)
  scale255_astype_uint8 : ndarray -> ndarray;
  (** [utils.read_openexr_image(path)] *)
  read_openexr_image : FS -> Path -> result ndarray;
  (** the names of the files [dir.glob(pattern)] yields, in its order *)
  glob_names : FS -> Path -> string -> list string;
  (** [open(path, "wb")] on these files: the exception it raises, when
      it raises (no such directory, a directory at [path], no
      permission) *)
  open_wb_error : FS -> string -> option exn;
  (** [file.write(content)] and the closing of the file just opened:
      the exception raised, when one is, and what the file holds then *)
  write_error : FS -> string -> bytes -> option (exn * bytes);
  (** what [open(path, "rb")] raises when no file can be read at
      [path] *)
  open_rb_error : FS -> string -> exn
}.

(** ** The object and the world *)

(** What [_comp_met] and [_decomp_met] hold: the closures returned by
    the [_decorate_*] static methods. *)
Definition comp_met_t : Type := ndarray -> dict -> result bytes.
Definition decomp_met_t : Type := bytes -> result (option ndarray).

(** The attributes of a [Compressor].  An attribute that is assigned
    outside [__init__]'s first lines is [None] until it exists. *)
Record Compressor : Type := mk_Compressor {
  res_dir : Path;
  image_dir : Path;
  image_extension : string;
  imgs : list ndarray;
  img_ids : option (list string);
  _comp_met : option comp_met_t;
  _decomp_met : option decomp_met_t;
  _settings : option loc
}.

Record World : Type := mk_World {
  heap : gmap loc dict;
  fs : FS;
  self : Compressor
}.

Definition M (A : Type) : Type := World -> result A * World.

#[global] Instance M_ret : MRet M := fun A a w => (Ok a, w).

#[global] Instance M_bind : MBind M := fun A B f m w =>
  match m w with
  | (Ok a, w') => f a w'
  | (Raise e, w') => (Raise e, w')
  end.

Definition raise {A : Type} (e : exn) : M A := fun w => (Raise e, w).

Definition lift {A : Type} (r : result A) : M A := fun w => (r, w).

Definition get_self : M Compressor := fun w => (Ok (self w), w).

Definition put_self (c : Compressor) : M unit :=
  fun w => (Ok tt, mk_World (heap w) (fs w) c).

Definition get_fs : M FS := fun w => (Ok (fs w), w).

(** [self.name], for an attribute that may not exist yet *)
Definition getattr {A : Type} (name : string)
    (field : Compressor -> option A) : M A :=
  c ← get_self;
  match field c with
  | Some v => mret v
  | None => raise (AttributeError name)
  end.

(** *** Dictionaries in the store *)

Definition deref (r : loc) : M dict := fun w =>
  match heap w !! r with
  | Some d => (Ok d, w)
  | None => (Raise (SystemError "dangling reference"), w)
  end.

Definition store (r : loc) (d : dict) : M unit := fun w =>
  (Ok tt, mk_World (<[r := d]> (heap w)) (fs w) (self w)).

(** [{...}]: a new dictionary object *)
Definition dict_new (d : dict) : M loc := fun w =>
  let r := fresh (dom (heap w)) in
  (Ok r, mk_World (<[r := d]> (heap w)) (fs w) (self w)).

(** [key in d] *)
Definition dict_contains (r : loc) (key : string) : M bool :=
  d ← deref r;
  mret (match d !! key with Some _ => true | None => false end).

(** [d[key]] *)
Definition dict_getitem (r : loc) (key : string) : M pyval :=
  d ← deref r;
  match d !! key with
  | Some v => mret v
  | None => raise (KeyError key)
  end.

(** [d[key] = v] *)
Definition dict_setitem (r : loc) (key : string) (v : pyval) : M unit :=
  d ← deref r;
  store r (<[key := v]> d).

(** [d.pop(key)] *)
Definition dict_pop (r : loc) (key : string) : M pyval :=
  d ← deref r;
  match d !! key with
  | Some v => store r (delete key d);; mret v
  | None => raise (KeyError key)
  end.

(** ** Exceptions without state: the closures *)

#[global] Instance result_ret : MRet result := fun A a => Ok a.

#[global] Instance result_bind : MBind result := fun A B f r =>
  match r with
  | Ok a => f a
  | Raise e => Raise e
  end.

(** [settings[key]] on the dictionary a closure was called with *)
Definition kw_getitem (settings : dict) (key : string) : result pyval :=
  match settings !! key with
  | Some v => Ok v
  | None => Raise (KeyError key)
  end.

(** The fixed shape of [_decorate_builtin_decompress]'s [reshape]. *)
Definition fixed_shape : list N := [2048; 2464; 3]%N.

(** [_decorate_builtin_compress(func)]: the closure [compress] calls
    [func(img, **settings)] on the array as it is. *)
Definition _decorate_builtin_compress (func : compress_fn) : comp_met_t :=
  fun img settings =>
    img_cmp ← func img settings;
    mret img_cmp.

(** [_decorate_builtin_decompress(func)] *)
Definition _decorate_builtin_decompress (func : decompress_fn) : decomp_met_t :=
  fun img =>
    img_dcmp ← func img;
    img_dcmp ← np.frombuffer img_dcmp float32;
    img_dcmp ← np.reshape img_dcmp fixed_shape;
    mret (Some img_dcmp).

Section Methods.

Variable L : Libs.

(** *** Files *)

(** [with open(path, "wb") as file: file.write(content)].  A failing
    [open] leaves the files as they are; once the file is open it is
    empty, and a failing write leaves in it what the write got to. *)
Definition file_write (path : string) (content : bytes) : M unit := fun w =>
  match open_wb_error L (fs w) path with
  | Some e => (Raise e, w)
  | None =>
      match write_error L (fs w) path content with
      | Some (e, partial) =>
          (Raise e, mk_World (heap w) (<[path := partial]> (fs w)) (self w))
      | None =>
          (Ok tt, mk_World (heap w) (<[path := content]> (fs w)) (self w))
      end
  end.

(** [with open(path, "rb") as file: file.read()] *)
Definition file_read (path : string) : M bytes := fun w =>
  match fs w !! path with
  | Some b => (Ok b, w)
  | None => (Raise (open_rb_error L (fs w) path), w)
  end.

(** [_decorate_cv_compress(func)] *)
Definition _decorate_cv_compress
    (func : pyval -> ndarray -> pyval -> result (bool * ndarray))
    : comp_met_t :=
  fun img settings =>
    let img := scale255_astype_uint8 L img in
    ext ← kw_getitem settings "ext";
    params ← kw_getitem settings "params";
    '(_, img_cmp) ← func ext img params;
    mret (np.tobytes img_cmp).

(** [_decorate_cv_decompress(func)] *)
Definition _decorate_cv_decompress
    (func : ndarray -> Z -> result (option ndarray)) : decomp_met_t :=
  fun img =>
    img ← np.frombuffer img uint8;
    img_dcmp ← func img cv2.IMREAD_UNCHANGED;
    mret img_dcmp.

(** [Compressor.select_algo(self, algo, settings)].  The branches
    are in the order of the source; the condition of the one before
    the last is the string ["png"] itself, as written there. *)
Definition select_algo (algo : string) (settings : loc) : M unit :=
  let algo := lower algo in
  '(comp, decomp) ←
    (if String.eqb algo "bz2" then
       let comp := _decorate_builtin_compress (bz2_compress L) in
       v ← dict_getitem settings "level";
       dict_setitem settings "compresslevel" v;;
       dict_pop settings "level";;
       let decomp := _decorate_builtin_decompress (bz2_decompress L) in
       mret (comp, decomp)
     else if String.eqb algo "gzip" then
       let comp := _decorate_builtin_compress (gzip_compress L) in
       v ← dict_getitem settings "level";
       dict_setitem settings "compresslevel" v;;
       dict_pop settings "level";;
       let decomp := _decorate_builtin_decompress (gzip_decompress L) in
       mret (comp, decomp)
     else if String.eqb algo "lzma" then
       let comp := _decorate_builtin_compress (lzma_compress L) in
       v ← dict_getitem settings "level";
       dict_setitem settings "preset" v;;
       dict_pop settings "level";;
       let decomp := _decorate_builtin_decompress (lzma_decompress L) in
       mret (comp, decomp)
     else if String.eqb algo "zlib" then
       let comp := _decorate_builtin_compress (zlib_compress L) in
       let decomp := _decorate_builtin_decompress (zlib_decompress L) in
       mret (comp, decomp)
     else if String.eqb algo "jpeg" || String.eqb algo "jpg" then
       let comp := _decorate_cv_compress (cv2_imencode L) in
       dict_setitem settings "ext" (VStr ".jpg");;
       level ← dict_getitem settings "level";
       quality ← lift (py_mul_int level 10);
       let params := [VInt cv2.IMWRITE_JPEG_QUALITY; quality] in
       params ←
         (has ← dict_contains settings "progressive";
          if has : bool then
            v ← dict_getitem settings "progressive";
            if isinstance_bool v
            then mret (params ++ [VInt cv2.IMWRITE_JPEG_PROGRESSIVE; v])%list
            else raise (CompressionError "JPEG progressive requires bool")
          else mret params);
       params ←
         (has ← dict_contains settings "optimize";
          if has : bool then
            v ← dict_getitem settings "optimize";
            if isinstance_bool v
            then mret (params ++ [VInt cv2.IMWRITE_JPEG_OPTIMIZE; v])%list
            else raise (CompressionError "JPEG optimize requires bool input")
          else mret params);
       params ←
         (has ← dict_contains settings "rst_interval";
          if has : bool then
            v ← dict_getitem settings "rst_interval";
            if isinstance_int v
            then mret (params ++ [VInt cv2.IMWRITE_JPEG_RST_INTERVAL; v])%list
            else raise (CompressionError "JPEG rst_interval requires int")
          else mret params);
       params ←
         (has ← dict_contains settings "luma_quality";
          if has : bool then
            v ← dict_getitem settings "luma_quality";
            if isinstance_int v
            then mret (params ++ [VInt cv2.IMWRITE_JPEG_LUMA_QUALITY; v])%list
            else raise (CompressionError "JPEG luma_quality requires int")
          else mret params);
       params ←
         (has ← dict_contains settings "chroma_quality";
          if has : bool then
            v ← dict_getitem settings "chroma_quality";
            if isinstance_int v
            then mret (params ++ [VInt cv2.IMWRITE_JPEG_CHROMA_QUALITY; v])%list
            else raise (CompressionError "JPEG chroma_quality requires int")
          else mret params);
       dict_setitem settings "params" (VTuple params);;
       let decomp := _decorate_cv_decompress (cv2_imdecode L) in
       mret (comp, decomp)
     else if str_truthy "png" then
       let comp := _decorate_cv_compress (cv2_imencode L) in
       dict_setitem settings "ext" (VStr ".png");;
       level ← dict_getitem settings "level";
       let params := [VInt cv2.IMWRITE_PNG_COMPRESSION; level] in
       dict_pop settings "level";;
       dict_setitem settings "params" (VTuple params);;
       let decomp := _decorate_cv_decompress (cv2_imdecode L) in
       mret (comp, decomp)
     else
       raise (CompressionError "Unknown compression algorithm."));
  c ← get_self;
  put_self (mk_Compressor (res_dir c) (image_dir c) (image_extension c)
              (imgs c) (img_ids c) (Some comp) (Some decomp) (Some settings)).

(** [Compressor.__init__(self, res_dir, algo=None, settings=None)] *)
Definition __init__ (res_dir : Path) (algo : option string)
    (settings : option loc) : M unit :=
  put_self (mk_Compressor res_dir (path_div res_dir "rendering") ".exr"
              [] None None None None);;
  let algo := match algo with None => "lzma" | Some a => a end in
  settings ← match settings with
             | None => dict_new {[ "level" := VInt 9 ]}
             | Some s => mret s
             end;
  select_algo algo settings.

(** [Compressor.get_frame_ids(self)] *)
Definition get_frame_ids : M (list string) :=
  c ← get_self;
  files ← get_fs;
  let scene_name := "Comp" in
  let image_names := scene_name ++ "*" ++ image_extension c in
  let file_names := glob_names L files (image_dir c) image_names in
  mret (map (fun file_name =>
               let file_name := strip (image_extension c) file_name in
               let file_name := strip scene_name file_name in
               strip "_" file_name)
            file_names).

(** [for x in l: body(x)] *)
Fixpoint for_each {A : Type} (l : list A) (body : A -> M unit) : M unit :=
  match l with
  | [] => mret tt
  | x :: r => body x;; for_each r body
  end.

(** [Compressor.load_images(self, img_ids=None)] *)
Definition load_images (ids : option (list string)) : M unit :=
  ids ← match ids with
        | None => get_frame_ids
        | Some l => mret l
        end;
  c ← get_self;
  put_self (mk_Compressor (res_dir c) (image_dir c) (image_extension c)
              (imgs c) (Some ids) (_comp_met c) (_decomp_met c)
              (_settings c));;
  for_each ids (fun id =>
    c ← get_self;
    let img_path :=
      path_div (image_dir c) ("Comp_" ++ id ++ image_extension c) in
    files ← get_fs;
    img ← lift (read_openexr_image L files img_path);
    c ← get_self;
    put_self (mk_Compressor (res_dir c) (image_dir c) (image_extension c)
                (imgs c ++ [img])%list (img_ids c) (_comp_met c)
                (_decomp_met c) (_settings c))).

(** [self.img_ids[0]] *)
Definition first_img_id : M string :=
  ids ← getattr "img_ids" img_ids;
  match ids with
  | id :: _ => mret id
  | [] => raise (IndexError "list index out of range")
  end.

(** [Compressor.compress(self, img)] *)
Definition compress (img : ndarray) : M bytes :=
  comp ← getattr "_comp_met" _comp_met;
  settings ← getattr "_settings" _settings;
  kwargs ← deref settings;
  img_cmp ← lift (comp img kwargs);
  c ← get_self;
  id ← first_img_id;
  file_write (path_str (path_div (image_dir c) id)) img_cmp;;
  mret img_cmp.

(** [Compressor.compress_series(self)] *)
Definition compress_series : M unit :=
  c ← get_self;
  for_each (imgs c) (fun img => compress img;; mret tt).

(** [Compressor.decompress(self, img)] *)
Definition decompress (img : option bytes) : M (option ndarray) :=
  img ← match img with
        | None =>
            c ← get_self;
            id ← first_img_id;
            file_read (path_str (path_div (image_dir c) id))
        | Some b => mret b
        end;
  decomp ← getattr "_decomp_met" _decomp_met;
  lift (decomp img).

End Methods.

(** ** Notions the statements use *)



(** The byte length of the raw buffer of a fixed-shape float32 image. *)
Definition fixed_nbytes : N := (itemsize float32 * np.prod fixed_shape)%N.



(** [open] and [write] go through at [path] for [content]. *)
Definition write_ok (L : Libs) (files : FS) (path : string) (content : bytes)
    : Prop :=
  open_wb_error L files path = None /\
  write_error L files path content = None.

(** Every write of a run of writes to one file goes through. *)
Fixpoint writes_ok (L : Libs) (files : FS) (path : string)
    (contents : list bytes) : Prop :=
  match contents with
  | [] => True
  | a :: rest =>
      write_ok L files path a /\ writes_ok L (<[path := a]> files) path rest
  end.

(** [self] after the three assignments that end [select_algo]. *)
Definition installed (c : Compressor) (comp : comp_met_t)
    (decomp : decomp_met_t) (settings : loc) : Compressor :=
  mk_Compressor (res_dir c) (image_dir c) (image_extension c) (imgs c)
    (img_ids c) (Some comp) (Some decomp) (Some settings).

Definition with_heap (w : World) (h : gmap loc dict) : World :=
  mk_World h (fs w) (self w).

(** The part of the world a call on the dictionary [r] may not touch:
    the attributes of [self], the files, every other dictionary. *)
Definition frame (r : loc) (w w' : World) : Prop :=
  self w' = self w /\ fs w' = fs w /\
  forall l : loc, l <> r -> heap w' !! l = heap w !! l.

Definition keeps {A : Type} (r : loc) (m : M A) : Prop :=
  forall w : World, frame r w (snd (m w)).

(** The exception of the last branch of [select_algo], and the
    computations that never raise it. *)
Definition unknown_algorithm : exn :=
  CompressionError "Unknown compression algorithm.".

Definition avoids_unknown {A : Type} (m : M A) : Prop :=
  forall w : World, fst (m w) <> Raise unknown_algorithm.

(** The entry a present JPEG option adds to [params]. *)
Definition opt_entry (d : dict) (key : string) (flag : Z) : list pyval :=
  match d !! key with
  | Some v => [VInt flag; v]
  | None => []
  end.

(** One [if key in settings: ...] block of the jpeg branch, on the
    contents of the dictionary. *)
Definition check_option (d : dict) (key : string) (isinstance : pyval -> bool)
    (flag : Z) (msg : string) (params : list pyval) : result (list pyval) :=
  match d !! key with
  | Some v =>
      if isinstance v then Ok (params ++ [VInt flag; v])%list
      else Raise (CompressionError msg)
  | None => Ok params
  end.

Definition jpeg_params (d : dict) (quality : pyval) : result (list pyval) :=
  p ← check_option d "progressive" isinstance_bool
        cv2.IMWRITE_JPEG_PROGRESSIVE "JPEG progressive requires bool"
        [VInt cv2.IMWRITE_JPEG_QUALITY; quality];
  p ← check_option d "optimize" isinstance_bool
        cv2.IMWRITE_JPEG_OPTIMIZE "JPEG optimize requires bool input" p;
  p ← check_option d "rst_interval" isinstance_int
        cv2.IMWRITE_JPEG_RST_INTERVAL "JPEG rst_interval requires int" p;
  p ← check_option d "luma_quality" isinstance_int
        cv2.IMWRITE_JPEG_LUMA_QUALITY "JPEG luma_quality requires int" p;
  check_option d "chroma_quality" isinstance_int
        cv2.IMWRITE_JPEG_CHROMA_QUALITY "JPEG chroma_quality requires int" p.

(** An option is acceptable when it is absent or of the right type. *)
Definition option_ok (d : dict) (key : string) (isinstance : pyval -> bool)
    : Prop :=
  match d !! key with
  | Some v => isinstance v = true
  | None => True
  end.

(** [self] with another image list, and with other frame identifiers. *)
Definition set_imgs (c : Compressor) (l : list ndarray) : Compressor :=
  mk_Compressor (res_dir c) (image_dir c) (image_extension c) l (img_ids c)
    (_comp_met c) (_decomp_met c) (_settings c).

Definition set_img_ids (c : Compressor) (ids : list string) : Compressor :=
  mk_Compressor (res_dir c) (image_dir c) (image_extension c) (imgs c)
    (Some ids) (_comp_met c) (_decomp_met c) (_settings c).

(** The file [load_images] reads for a frame identifier. *)
Definition img_path (c : Compressor) (id : string) : Path :=
  path_div (image_dir c) ("Comp_" ++ id ++ image_extension c).

(** The body of the loop of [load_images]. *)
Definition load_one (L : Libs) (id : string) : M unit :=
  c ← get_self;
  let img_path :=
    path_div (image_dir c) ("Comp_" ++ id ++ image_extension c) in
  files ← get_fs;
  img ← lift (read_openexr_image L files img_path);
  c ← get_self;
  put_self (mk_Compressor (res_dir c) (image_dir c) (image_extension c)
              (imgs c ++ [img])%list (img_ids c) (_comp_met c)
              (_decomp_met c) (_settings c)).

(** An option is rejected when it is present with a value of the
    wrong type. *)
Definition option_bad (d : dict) (key : string) (isinstance : pyval -> bool)
    : Prop :=
  exists v : pyval, d !! key = Some v /\ isinstance v = false.

(** The names that [select_algo] compares [algo] with. *)
Definition compared_names : list string :=
  ["bz2"; "gzip"; "lzma"; "zlib"; "jpeg"; "jpg"].

(** The names the specification lists as supported. *)
Definition known_names : list string := compared_names ++ ["png"].

(** *** Strings: what [strip] keeps

    The last and the first character of a string, and whether every
    character of a string is in a set. *)
Fixpoint str_last (s : string) : option ascii :=
  match s with
  | EmptyString => None
  | String c EmptyString => Some c
  | String _ r => str_last r
  end.

Fixpoint str_all_in (chars s : string) : bool :=
  match s with
  | EmptyString => true
  | String c r => str_mem c chars && str_all_in chars r
  end.

Definition str_head (s : string) : option ascii :=
  match s with EmptyString => None | String c _ => Some c end.

(** The identifier [get_frame_ids] makes of a file name. *)
Definition frame_id_of (ext name : string) : string :=
  strip "_" (strip "Comp" (strip ext name)).

(** The file name [load_images] gives to a frame identifier. *)
Definition comp_file_name (ext id : string) : string := "Comp_" ++ id ++ ext.

(** An identifier that [get_frame_ids] gives back as it is: it does not
    start with an underscore and does not end with a character of
    [".exr"], of ["Comp"] or with an underscore. *)
Definition clean_id (id : string) : bool :=
  match str_head id, str_last id with
  | Some f, Some l =>
      negb (str_mem f "_") && negb (str_mem l ".exr")
      && negb (str_mem l "Comp") && negb (str_mem l "_")
  | _, _ => false
  end.


(** ** [gzip] as CPython 3.11 frames a stream

    [gzip.compress(data, compresslevel)] of CPython 3.11 ([Lib/gzip.py])
    returns a header, the raw deflate stream of [data] and a trailer
    made of the CRC of [data] and of [len(data) & 0xffffffff];
    [gzip.decompress] inflates the stream and raises when the recorded
    length is not the number of bytes it produced.  [len] of an array
    is the length of its first axis, not its size in bytes.  The
    deflate stream is a parameter here; the header and the CRC, which
    both sides compute from the buffer, are left out. *)







(** ** Concrete libraries and worlds *)

(** Codecs that store the input as it is and accept any keyword. *)
Definition stored : compress_fn := fun a _ => Ok (np.tobytes a).

(** An [open] that finds every directory and a device that takes every
    write. *)
Definition no_open_wb_error : FS -> string -> option exn := fun _ _ => None.
Definition no_write_error : FS -> string -> bytes -> option (exn * bytes) :=
  fun _ _ _ => None.
Definition file_not_found : FS -> string -> exn :=
  fun _ path => FileNotFoundError path.

Definition stored_libs : Libs := {|
  bz2_compress := stored;   bz2_decompress := fun b => Ok b;
  gzip_compress := stored;  gzip_decompress := fun b => Ok b;
  lzma_compress := stored;  lzma_decompress := fun b => Ok b;
  zlib_compress := stored;  zlib_decompress := fun b => Ok b;
  cv2_imencode := fun _ a _ => Ok (true, a);
  cv2_imdecode := fun a _ => Ok (Some a);
  scale255_astype_uint8 := fun a => a;
  read_openexr_image := fun _ _ => Ok (mk_ndarray float32 [0%N] []);
  glob_names := fun _ _ _ => [];
  open_wb_error := no_open_wb_error;
  write_error := no_write_error;
  open_rb_error := file_not_found
|}.


(** As [stored_libs], with a [zlib.compress] that reports which
    [level] keyword it was called with: one byte, the level, or no
    byte at all when the keyword is not given. *)
Definition probe_libs : Libs := {|
  bz2_compress := stored;   bz2_decompress := fun b => Ok b;
  gzip_compress := stored;  gzip_decompress := fun b => Ok b;
  lzma_compress := stored;  lzma_decompress := fun b => Ok b;
  zlib_compress := fun _ kwargs =>
    match kwargs !! "level" with
    | Some (VInt n) =>
        match Byte.of_N (Z.to_N n) with
        | Some b => Ok [b]
        | None => Raise (LibraryError "Bad compression level")
        end
    | Some _ => Raise (TypeError "an integer is required")
    | None => Ok []
    end;
  zlib_decompress := fun b => Ok b;
  cv2_imencode := fun _ a _ => Ok (true, a);
  cv2_imdecode := fun a _ => Ok (Some a);
  scale255_astype_uint8 := fun a => a;
  read_openexr_image := fun _ _ => Ok (mk_ndarray float32 [0%N] []);
  glob_names := fun _ _ _ => [];
  open_wb_error := no_open_wb_error;
  write_error := no_write_error;
  open_rb_error := file_not_found
|}.

(** Libraries that work on the modelled file system: the directory
    listing yields [names], an image file is read as a flat float32
    array over its bytes, and the byte-stream codecs store their input
    but refuse an empty buffer.  The one directory is [res/rendering]:
    a file opens for writing inside it and nowhere else. *)
Definition demo_open_wb_error (files : FS) (path : string) : option exn :=
  if String.eqb path "res/rendering" then Some (IsADirectoryError path)
  else if String.prefix "res/rendering/" path then None
  else Some (FileNotFoundError path).

Definition demo_libs (names : list string) : Libs :=
  let compress : compress_fn := fun a _ =>
    match np.tobytes a with
    | [] => Raise (LibraryError "empty input")
    | b => Ok b
    end in
  {|
    bz2_compress := compress;   bz2_decompress := fun b => Ok b;
    gzip_compress := compress;  gzip_decompress := fun b => Ok b;
    lzma_compress := compress;  lzma_decompress := fun b => Ok b;
    zlib_compress := compress;  zlib_decompress := fun b => Ok b;
    cv2_imencode := fun _ a _ => Ok (false, a);
    cv2_imdecode := fun _ _ => Ok None;
    scale255_astype_uint8 := fun a => a;
    read_openexr_image := fun files path =>
      match files !! path_str path with
      | Some b => Ok (mk_ndarray float32 [(nbytes b / 4)%N] b)
      | None => Raise (FileNotFoundError (path_str path))
      end;
    glob_names := fun _ _ _ => names;
    open_wb_error := demo_open_wb_error;
    write_error := no_write_error;
    open_rb_error := fun _ path =>
      if String.eqb path "res/rendering" then IsADirectoryError path
      else FileNotFoundError path
  |}.

(** A [Compressor] whose [__init__] has run up to the call of
    [select_algo], and a world with one dictionary, at reference 1. *)
Definition ex_self : Compressor :=
  mk_Compressor ["res"] ["res"; "rendering"] ".exr" [] None None None None.

Definition ex_world (d : dict) : World :=
  mk_World {[ 1%positive := d ]} ∅ ex_self.


(** A one-sample image. *)
Definition tiny_image : ndarray :=
  mk_ndarray float32 [1%N] [x00; x00; x80; x3f].

(** ** The monad: inversion and frame lemmas *)

Lemma bind_run {A B : Type} (m : M A) (k : A -> M B) (w : World) :
  (m ≫= k) w =
  match m w with
  | (Ok a, w1) => k a w1
  | (Raise e, w1) => (Raise e, w1)
  end.
Proof. reflexivity. Qed.

Lemma bind_raise_inv {A B : Type} (m : M A) (k : A -> M B)
    (w w' : World) (e : exn) :
  (m ≫= k) w = (Raise e, w') ->
  m w = (Raise e, w') \/
  exists a w1, m w = (Ok a, w1) /\ k a w1 = (Raise e, w').
Proof.
  rewrite bind_run. destruct (m w) as [[a|e1] w1]; intros H.
  - right. eauto.
  - left. by inversion H.
Qed.

Lemma frame_refl (r : loc) (w : World) : frame r w w.
Proof. repeat split. Qed.

Lemma frame_trans (r : loc) (w1 w2 w3 : World) :
  frame r w1 w2 -> frame r w2 w3 -> frame r w1 w3.
Proof.
  intros (Hs1 & Hf1 & Hh1) (Hs2 & Hf2 & Hh2). repeat split.
  - congruence.
  - congruence.
  - intros l Hl. rewrite Hh2, Hh1; auto.
Qed.

Lemma keeps_ret {A : Type} (r : loc) (a : A) : keeps r (mret a).
Proof. intros w. apply frame_refl. Qed.

Lemma keeps_raise {A : Type} (r : loc) (e : exn) : keeps r (@raise A e).
Proof. intros w. apply frame_refl. Qed.

Lemma keeps_lift {A : Type} (r : loc) (x : result A) : keeps r (lift x).
Proof. intros w. apply frame_refl. Qed.

Lemma keeps_bind {A B : Type} (r : loc) (m : M A) (k : A -> M B) :
  keeps r m -> (forall a, keeps r (k a)) -> keeps r (m ≫= k).
Proof.
  intros Hm Hk w. rewrite bind_run. specialize (Hm w).
  destruct (m w) as [[a|e] w1]; cbn [snd] in *.
  - eapply frame_trans; [exact Hm | apply Hk].
  - exact Hm.
Qed.

Lemma keeps_deref (r : loc) : keeps r (deref r).
Proof. intros w. unfold deref. destruct (heap w !! r); apply frame_refl. Qed.

Lemma keeps_store (r : loc) (d : dict) : keeps r (store r d).
Proof.
  intros w. repeat split. intros l Hl. cbn. by rewrite lookup_insert_ne.
Qed.

Lemma keeps_contains (r : loc) (key : string) : keeps r (dict_contains r key).
Proof. apply keeps_bind; [apply keeps_deref | intros; apply keeps_ret]. Qed.

Lemma keeps_getitem (r : loc) (key : string) : keeps r (dict_getitem r key).
Proof.
  apply keeps_bind; [apply keeps_deref | intros d].
  destruct (d !! key); [apply keeps_ret | apply keeps_raise].
Qed.

Lemma keeps_setitem (r : loc) (key : string) (v : pyval) :
  keeps r (dict_setitem r key v).
Proof. apply keeps_bind; [apply keeps_deref | intros; apply keeps_store]. Qed.

Lemma keeps_pop (r : loc) (key : string) : keeps r (dict_pop r key).
Proof.
  apply keeps_bind; [apply keeps_deref | intros d].
  destruct (d !! key); [|apply keeps_raise].
  apply keeps_bind; [apply keeps_store | intros; apply keeps_ret].
Qed.

(** ** Running the dictionary operations *)

Lemma getitem_run (r : loc) (key : string) (w : World) (d : dict) :
  heap w !! r = Some d ->
  dict_getitem r key w =
    (match d !! key with Some v => Ok v | None => Raise (KeyError key) end, w).
Proof.
  intros H. unfold dict_getitem. rewrite bind_run. unfold deref. rewrite H.
  by destruct (d !! key).
Qed.

Lemma contains_run (r : loc) (key : string) (w : World) (d : dict) :
  heap w !! r = Some d ->
  dict_contains r key w =
    (Ok (match d !! key with Some _ => true | None => false end), w).
Proof.
  intros H. unfold dict_contains. rewrite bind_run. unfold deref. by rewrite H.
Qed.

Lemma setitem_run (r : loc) (key : string) (v : pyval) (w : World) (d : dict) :
  heap w !! r = Some d ->
  dict_setitem r key v w =
    (Ok tt, with_heap w (<[r := <[key := v]> d]> (heap w))).
Proof.
  intros H. unfold dict_setitem. rewrite bind_run. unfold deref. by rewrite H.
Qed.

Lemma pop_run (r : loc) (key : string) (v : pyval) (w : World) (d : dict) :
  heap w !! r = Some d -> d !! key = Some v ->
  dict_pop r key w = (Ok v, with_heap w (<[r := delete key d]> (heap w))).
Proof.
  intros H Hk. unfold dict_pop. rewrite bind_run. unfold deref. rewrite H, Hk.
  reflexivity.
Qed.

(** Evaluate the comparisons of two literal strings in the goal. *)
Ltac eqb_eval :=
  repeat match goal with
  | |- context [String.eqb ?a ?b] =>
      let v := eval vm_compute in (String.eqb a b) in
      change (String.eqb a b) with v
  end.

Ltac heap_at :=
  cbn [heap with_heap]; first [eassumption | apply lookup_insert_eq].

(** One step of a method body on a world whose dictionary is known. *)
Ltac mstep :=
  first
    [ rewrite bind_run
    | erewrite getitem_run by heap_at
    | erewrite setitem_run by heap_at
    | erewrite contains_run by heap_at
    | erewrite pop_run by (first [heap_at | eassumption | by simplify_map_eq]) ];
  cbv beta iota.

Ltac mfinish :=
  unfold mret, M_ret, get_self, put_self, raise, lift, installed;
  cbv beta iota; cbn [with_heap heap fs self];
  rewrite ?insert_insert_eq; try reflexivity.

(** One [if key in settings: ...] block of the jpeg branch reads the
    dictionary and leaves the world as it is. *)
Lemma option_block_run (r : loc) (key : string) (isinstance : pyval -> bool)
    (flag : Z) (msg : string) (params : list pyval) (w : World) (d : dict) :
  heap w !! r = Some d ->
  (dict_contains r key ≫= fun has : bool =>
     if has then
       dict_getitem r key ≫= fun v =>
         if isinstance v then mret (params ++ [VInt flag; v])%list
         else raise (CompressionError msg)
     else mret params) w
  = (check_option d key isinstance flag msg params, w).
Proof.
  intros H. rewrite bind_run. erewrite contains_run by eassumption.
  unfold check_option. cbv iota.
  destruct (d !! key) as [v|] eqn:Hk; [|reflexivity].
  rewrite bind_run. erewrite getitem_run by eassumption. rewrite Hk.
  cbv iota. by destruct (isinstance v).
Qed.

Lemma check_option_insert_ne (d : dict) (k key : string) (x : pyval)
    (isinstance : pyval -> bool) (flag : Z) (msg : string)
    (params : list pyval) :
  k <> key ->
  check_option (<[k := x]> d) key isinstance flag msg params =
  check_option d key isinstance flag msg params.
Proof. intros H. unfold check_option. by rewrite lookup_insert_ne. Qed.

(** ** The branches of [select_algo] *)

Section Branches.

Variable L : Libs.
Variables (algo : string) (r : loc) (w : World) (d : dict).
Hypothesis Hr : heap w !! r = Some d.

Lemma select_algo_bz2_run (v : pyval) :
  lower algo = "bz2" -> d !! "level" = Some v ->
  select_algo L algo r w =
    (Ok tt,
     mk_World (<[r := delete "level" (<["compresslevel" := v]> d)]> (heap w))
       (fs w)
       (installed (self w) (_decorate_builtin_compress (bz2_compress L))
          (_decorate_builtin_decompress (bz2_decompress L)) r)).
Proof.
  intros Ha Hl. unfold select_algo. cbv zeta. rewrite Ha. eqb_eval.
  cbv iota. repeat mstep. rewrite Hl. cbv iota. repeat mstep. mfinish.
Qed.

Lemma select_algo_gzip_run (v : pyval) :
  lower algo = "gzip" -> d !! "level" = Some v ->
  select_algo L algo r w =
    (Ok tt,
     mk_World (<[r := delete "level" (<["compresslevel" := v]> d)]> (heap w))
       (fs w)
       (installed (self w) (_decorate_builtin_compress (gzip_compress L))
          (_decorate_builtin_decompress (gzip_decompress L)) r)).
Proof.
  intros Ha Hl. unfold select_algo. cbv zeta. rewrite Ha. eqb_eval.
  cbv iota. repeat mstep. rewrite Hl. cbv iota. repeat mstep. mfinish.
Qed.

Lemma select_algo_lzma_run (v : pyval) :
  lower algo = "lzma" -> d !! "level" = Some v ->
  select_algo L algo r w =
    (Ok tt,
     mk_World (<[r := delete "level" (<["preset" := v]> d)]> (heap w))
       (fs w)
       (installed (self w) (_decorate_builtin_compress (lzma_compress L))
          (_decorate_builtin_decompress (lzma_decompress L)) r)).
Proof.
  intros Ha Hl. unfold select_algo. cbv zeta. rewrite Ha. eqb_eval.
  cbv iota. repeat mstep. rewrite Hl. cbv iota. repeat mstep. mfinish.
Qed.

Lemma select_algo_jpeg_run :
  lower algo = "jpeg" \/ lower algo = "jpg" ->
  select_algo L algo r w =
    let d1 := <["ext" := VStr ".jpg"]> d in
    let w1 := with_heap w (<[r := d1]> (heap w)) in
    match d !! "level" with
    | None => (Raise (KeyError "level"), w1)
    | Some level =>
        match py_mul_int level 10 with
        | Raise e => (Raise e, w1)
        | Ok quality =>
            match jpeg_params d quality with
            | Raise e => (Raise e, w1)
            | Ok ps =>
                (Ok tt,
                 mk_World (<[r := <["params" := VTuple ps]> d1]> (heap w))
                   (fs w)
                   (installed (self w)
                      (_decorate_cv_compress L (cv2_imencode L))
                      (_decorate_cv_decompress (cv2_imdecode L)) r))
            end
        end
    end.
Proof.
  intros Ha. unfold select_algo. cbv zeta.
  assert (Hb : String.eqb (lower algo) "jpeg" || String.eqb (lower algo) "jpg"
               = true)
    by (destruct Ha as [-> | ->]; reflexivity).
  assert (Hn : String.eqb (lower algo) "bz2" = false /\
               String.eqb (lower algo) "gzip" = false /\
               String.eqb (lower algo) "lzma" = false /\
               String.eqb (lower algo) "zlib" = false)
    by (destruct Ha as [-> | ->]; repeat split; reflexivity).
  destruct Hn as (-> & -> & -> & ->). rewrite Hb. cbv iota.
  repeat mstep. rewrite lookup_insert_ne by done.
  destruct (d !! "level") as [level|]; cbv iota; [|reflexivity].
  rewrite bind_run. unfold lift at 1.
  destruct (py_mul_int level 10) as [quality|e]; cbv iota; [|reflexivity].
  unfold jpeg_params.
  do 5 (rewrite bind_run; erewrite option_block_run by heap_at;
        rewrite check_option_insert_ne by done;
        match goal with
        | |- context [check_option d ?k ?i ?f ?m ?p0] =>
            let ps := fresh "ps" in
            destruct (check_option d k i f m p0) as [ps|?];
            cbn [mbind result_bind]; cbv iota; [|reflexivity]
        end).
  repeat mstep. mfinish.
Qed.

Lemma not_compared_eqb :
  lower algo ∉ compared_names ->
  String.eqb (lower algo) "bz2" = false /\
  String.eqb (lower algo) "gzip" = false /\
  String.eqb (lower algo) "lzma" = false /\
  String.eqb (lower algo) "zlib" = false /\
  String.eqb (lower algo) "jpeg" = false /\
  String.eqb (lower algo) "jpg" = false.
Proof.
  unfold compared_names. intros H.
  repeat split; apply String.eqb_neq; intros E; apply H; rewrite E;
    repeat constructor.
Qed.

(** Every other name, ["png"] among them, runs the png branch. *)
Lemma select_algo_other_run :
  lower algo ∉ compared_names ->
  select_algo L algo r w =
    let d1 := <["ext" := VStr ".png"]> d in
    match d !! "level" with
    | None => (Raise (KeyError "level"), with_heap w (<[r := d1]> (heap w)))
    | Some level =>
        (Ok tt,
         mk_World
           (<[r := <["params" :=
                       VTuple [VInt cv2.IMWRITE_PNG_COMPRESSION; level]]>
                     (delete "level" d1)]> (heap w))
           (fs w)
           (installed (self w) (_decorate_cv_compress L (cv2_imencode L))
              (_decorate_cv_decompress (cv2_imdecode L)) r))
    end.
Proof.
  intros Hn. apply not_compared_eqb in Hn.
  destruct Hn as (H1 & H2 & H3 & H4 & H5 & H6).
  unfold select_algo. cbv zeta. rewrite H1, H2, H3, H4, H5, H6.
  cbn [orb str_truthy]. cbv iota.
  repeat mstep. rewrite lookup_insert_ne by done.
  destruct (d !! "level") as [level|] eqn:Hl; cbv iota; [|reflexivity].
  repeat mstep. mfinish.
Qed.

End Branches.

(** The zlib branch does not read the dictionary. *)
Lemma select_algo_zlib_run (L : Libs) (algo : string) (r : loc) (w : World) :
  lower algo = "zlib" ->
  select_algo L algo r w =
    (Ok tt,
     mk_World (heap w) (fs w)
       (installed (self w) (_decorate_builtin_compress (zlib_compress L))
          (_decorate_builtin_decompress (zlib_decompress L)) r)).
Proof.
  intros Ha. unfold select_algo. cbv zeta. rewrite Ha. eqb_eval. cbv iota.
  repeat mstep. mfinish.
Qed.

(** A call of [select_algo] that raises has touched nothing but the
    dictionary it was given. *)
Lemma select_algo_raise_frame (L : Libs) (algo : string) (r : loc)
    (w w' : World) (e : exn) :
  select_algo L algo r w = (Raise e, w') -> frame r w w'.
Proof.
  unfold select_algo. cbv zeta. intros H.
  apply bind_raise_inv in H. destruct H as [H | (a & w1 & _ & H)].
  - match type of H with ?m w = _ => assert (Hk : keeps r m) end.
    { repeat first
        [ apply keeps_ret | apply keeps_raise | apply keeps_lift
        | apply keeps_getitem | apply keeps_setitem | apply keeps_pop
        | apply keeps_contains
        | apply keeps_bind; [|intros ?]
        | match goal with
          | |- keeps _ (if ?b then _ else _) => destruct b
          end ]. }
    specialize (Hk w). rewrite H in Hk. exact Hk.
  - destruct a as [comp decomp]. discriminate H.
Qed.

(** The message of the last branch is never raised. *)
Lemma avoids_ret {A : Type} (a : A) : avoids_unknown (mret a).
Proof. intros w. discriminate. Qed.

Lemma avoids_raise {A : Type} (e : exn) :
  e <> unknown_algorithm -> avoids_unknown (@raise A e).
Proof. intros H w E. apply H. by inversion E. Qed.

Lemma avoids_bind {A B : Type} (m : M A) (k : A -> M B) :
  avoids_unknown m -> (forall a, avoids_unknown (k a)) ->
  avoids_unknown (m ≫= k).
Proof.
  intros Hm Hk w. rewrite bind_run. specialize (Hm w).
  destruct (m w) as [[a|e] w1]; cbn [fst] in *.
  - apply Hk.
  - intros E. apply Hm. by inversion E.
Qed.

Lemma avoids_deref (r : loc) : avoids_unknown (deref r).
Proof. intros w. unfold deref. by destruct (heap w !! r). Qed.

Lemma avoids_store (r : loc) (d : dict) : avoids_unknown (store r d).
Proof. intros w. discriminate. Qed.

Lemma avoids_contains (r : loc) (key : string) :
  avoids_unknown (dict_contains r key).
Proof. apply avoids_bind; [apply avoids_deref | intros; apply avoids_ret]. Qed.

Lemma avoids_getitem (r : loc) (key : string) :
  avoids_unknown (dict_getitem r key).
Proof.
  apply avoids_bind; [apply avoids_deref | intros d].
  destruct (d !! key); [apply avoids_ret | by apply avoids_raise].
Qed.

Lemma avoids_setitem (r : loc) (key : string) (v : pyval) :
  avoids_unknown (dict_setitem r key v).
Proof. apply avoids_bind; [apply avoids_deref | intros; apply avoids_store]. Qed.

Lemma avoids_pop (r : loc) (key : string) : avoids_unknown (dict_pop r key).
Proof.
  apply avoids_bind; [apply avoids_deref | intros d].
  destruct (d !! key); [|by apply avoids_raise].
  apply avoids_bind; [apply avoids_store | intros; apply avoids_ret].
Qed.

Lemma avoids_mul (v : pyval) (k : Z) : avoids_unknown (lift (py_mul_int v k)).
Proof.
  intros w. destruct v; try done.
  unfold lift, py_mul_int, float_of_int. cbn [fst].
  by destruct (SpecFloat.binary_normalize 53 1024 k 0 false).
Qed.

Lemma avoids_get_self : avoids_unknown get_self.
Proof. intros w. discriminate. Qed.

Lemma avoids_put_self (c : Compressor) : avoids_unknown (put_self c).
Proof. intros w. discriminate. Qed.

Lemma select_algo_unknown_unreachable (L : Libs) (algo : string) (r : loc) :
  avoids_unknown (select_algo L algo r).
Proof.
  unfold select_algo. cbv zeta. cbn [str_truthy].
  repeat first
    [ apply avoids_ret | apply avoids_mul
    | apply avoids_getitem | apply avoids_setitem | apply avoids_pop
    | apply avoids_contains | apply avoids_get_self | apply avoids_put_self
    | apply avoids_raise; discriminate
    | apply avoids_bind; [|intros ?]
    | match goal with
      | |- avoids_unknown (if ?b then _ else _) => destruct b
      | |- avoids_unknown (let '(_, _) := ?a in _) => destruct a
      end ].
Qed.

(** ** Unknown algorithm names *)

(** C1 (the code departs from the claim).  A name outside bz2, gzip,
    lzma, zlib, jpeg, jpg and png is not rejected: the condition of the
    png branch is the non-empty string ["png"], which is true for every
    [algo], so the branch that raises "Unknown compression algorithm."
    is never reached.  Here [select_algo("webp", {"level": 5})] returns
    normally, turns the caller's dictionary into the png parameters and
    installs the image-container codec pair. *)
Theorem select_algo_webp_installs_png (L : Libs) :
  (lower "webp" ∉ known_names) /\
  select_algo L "webp" 1 (ex_world {[ "level" := VInt 5 ]}) =
    (Ok tt,
     mk_World
       {[ 1%positive :=
            <["params" := VTuple [VInt cv2.IMWRITE_PNG_COMPRESSION; VInt 5]]>
              {[ "ext" := VStr ".png" ]} ]}
       ∅
       (installed ex_self (_decorate_cv_compress L (cv2_imencode L))
          (_decorate_cv_decompress (cv2_imdecode L)) 1)).
Proof.
  split.
  - unfold known_names, compared_names. cbn [app]. vm_compute lower.
    intros H. repeat (apply elem_of_cons in H as [H|H]; [discriminate H|]).
    by apply elem_of_nil in H.
  - vm_compute. reflexivity.
Qed.

(** ** The byte-stream decoder *)

Lemma fixed_nbytes_value : fixed_nbytes = 60555264%N.
Proof. reflexivity. Qed.

Lemma builtin_decompress_run (func : decompress_fn) (art raw : bytes) :
  func art = Ok raw ->
  _decorate_builtin_decompress func art =
    if (nbytes raw mod 4 =? 0)%N then
      if (nbytes raw / 4 =? np.prod fixed_shape)%N
      then Ok (Some (mk_ndarray float32 fixed_shape raw))
      else Raise (ValueError "cannot reshape array into shape")
    else Raise (ValueError "buffer size must be a multiple of element size").
Proof.
  intros H. unfold _decorate_builtin_decompress.
  rewrite H. unfold mbind, result_bind, mret, result_ret, np.frombuffer.
  change (itemsize float32) with 4%N.
  destruct (nbytes raw mod 4 =? 0)%N; [|reflexivity].
  unfold np.reshape, np.size. cbn [shape dtype data].
  change (np.prod [(nbytes raw / 4)%N]) with (nbytes raw / 4 * 1)%N.
  rewrite N.mul_1_r.
  by destruct (nbytes raw / 4 =? np.prod fixed_shape)%N.
Qed.

Lemma exact_length (n : N) :
  (n mod 4 = 0 -> n / 4 = np.prod fixed_shape -> n = fixed_nbytes)%N.
Proof.
  intros Hm Hd. rewrite (N.div_mod n 4) by discriminate.
  rewrite Hm, Hd. reflexivity.
Qed.

(** C2.  The decoder of the byte-stream family, on an artifact that
    decompresses to a buffer whose length is not that of 2048*2464*3
    float32 samples, raises ([ValueError], from [frombuffer] or from
    [reshape]: the source's form of the specification's
    ReconstructionError); and whatever it returns is the array of the
    fixed shape over the whole decompressed buffer, never a shorter or
    longer one. *)
Theorem builtin_decompress_rejects_wrong_length
    (func : decompress_fn) (art raw : bytes) :
  func art = Ok raw ->
  (nbytes raw <> fixed_nbytes ->
   exists msg, _decorate_builtin_decompress func art = Raise (ValueError msg))
  /\
  (forall res, _decorate_builtin_decompress func art = Ok res ->
     res = Some (mk_ndarray float32 fixed_shape raw) /\
     nbytes raw = fixed_nbytes).
Proof.
  intros H. rewrite (builtin_decompress_run func art raw H).
  destruct (nbytes raw mod 4 =? 0)%N eqn:Hm.
  - destruct (nbytes raw / 4 =? np.prod fixed_shape)%N eqn:Hd.
    + apply N.eqb_eq in Hm, Hd. split.
      * intros Hne. destruct Hne. by apply exact_length.
      * intros res [= <-]. split; [reflexivity | by apply exact_length].
    + split; [eauto | discriminate].
  - split; [eauto | discriminate].
Qed.

Lemma builtin_decompress_rejects_wrong_length_witness :
  (exists msg,
     _decorate_builtin_decompress (zlib_decompress stored_libs)
       [x00; x00; x80; x3f] = Raise (ValueError msg)) /\
  (forall res,
     _decorate_builtin_decompress (zlib_decompress stored_libs)
       [x00; x00; x80; x3f] = Ok res ->
     res = Some (mk_ndarray float32 fixed_shape [x00; x00; x80; x3f]) /\
     nbytes [x00; x00; x80; x3f] = fixed_nbytes).
Proof.
  destruct (builtin_decompress_rejects_wrong_length
              (zlib_decompress stored_libs) [x00; x00; x80; x3f]
              [x00; x00; x80; x3f] eq_refl) as [H1 H2].
  split; [apply H1; vm_compute; discriminate | exact H2].
Defined.

(** ** Round trip through a byte-stream codec *)

Lemma builtin_compress_call (func : compress_fn) (img : ndarray)
    (kwargs : dict) :
  _decorate_builtin_compress func img kwargs = func img kwargs.
Proof.
  unfold _decorate_builtin_compress, mbind, result_bind, mret, result_ret.
  by destruct (func img kwargs).
Qed.








(** ** The jpeg options *)

Lemma check_option_bad (d : dict) (key : string) (isinstance : pyval -> bool)
    (flag : Z) (msg : string) (params : list pyval) :
  option_bad d key isinstance ->
  check_option d key isinstance flag msg params = Raise (CompressionError msg).
Proof. intros (v & Hk & Hv). unfold check_option. by rewrite Hk, Hv. Qed.

Lemma check_option_ok (d : dict) (key : string) (isinstance : pyval -> bool)
    (flag : Z) (msg : string) (params : list pyval) :
  option_ok d key isinstance ->
  check_option d key isinstance flag msg params =
    Ok (params ++ opt_entry d key flag)%list.
Proof.
  unfold option_ok, check_option, opt_entry.
  destruct (d !! key) as [v|]; [intros -> | intros _].
  - reflexivity.
  - by rewrite app_nil_r.
Qed.

Lemma check_option_inv (d : dict) (key : string) (isinstance : pyval -> bool)
    (flag : Z) (msg : string) (params ps : list pyval) :
  check_option d key isinstance flag msg params = Ok ps ->
  option_ok d key isinstance /\ ps = (params ++ opt_entry d key flag)%list.
Proof.
  unfold option_ok, check_option, opt_entry.
  destruct (d !! key) as [v|].
  - destruct (isinstance v); [|discriminate]. by intros [= <-].
  - intros [= <-]. by rewrite app_nil_r.
Qed.

(** C4, as the code has it.  On a settings dictionary whose [level]
    is present and can be multiplied by 10, selecting jpeg or jpg
    raises, inside [select_algo] and whatever the codecs of [L] would
    do, [CompressionError] (the source's class for the specification's
    InvalidSetting) with the message of the first option, in the order
    progressive, optimize, rst_interval, luma_quality, chroma_quality,
    that is present with a value of the wrong type.  The world it
    leaves differs from the initial one in the caller's dictionary
    only, which has gained [ext]: no codec pair is installed. *)
Theorem jpeg_option_validation (L : Libs) (algo : string) (r : loc)
    (w : World) (d : dict) (level quality : pyval) :
  lower algo = "jpeg" \/ lower algo = "jpg" ->
  heap w !! r = Some d ->
  d !! "level" = Some level ->
  py_mul_int level 10 = Ok quality ->
  let w1 := with_heap w (<[r := <["ext" := VStr ".jpg"]> d]> (heap w)) in
  let fails (msg : string) :=
    select_algo L algo r w = (Raise (CompressionError msg), w1) in
  (option_bad d "progressive" isinstance_bool ->
   fails "JPEG progressive requires bool") /\
  (option_ok d "progressive" isinstance_bool ->
   option_bad d "optimize" isinstance_bool ->
   fails "JPEG optimize requires bool input") /\
  (option_ok d "progressive" isinstance_bool ->
   option_ok d "optimize" isinstance_bool ->
   option_bad d "rst_interval" isinstance_int ->
   fails "JPEG rst_interval requires int") /\
  (option_ok d "progressive" isinstance_bool ->
   option_ok d "optimize" isinstance_bool ->
   option_ok d "rst_interval" isinstance_int ->
   option_bad d "luma_quality" isinstance_int ->
   fails "JPEG luma_quality requires int") /\
  (option_ok d "progressive" isinstance_bool ->
   option_ok d "optimize" isinstance_bool ->
   option_ok d "rst_interval" isinstance_int ->
   option_ok d "luma_quality" isinstance_int ->
   option_bad d "chroma_quality" isinstance_int ->
   fails "JPEG chroma_quality requires int").
Proof.
  intros Ha Hr Hl Hq w1 fails. subst fails. cbv beta.
  rewrite (select_algo_jpeg_run L algo r w d Hr Ha). cbv zeta.
  rewrite Hl, Hq. fold w1. unfold jpeg_params.
  repeat split; intros.
  all: repeat (rewrite check_option_ok by assumption;
               cbn [mbind result_bind]).
  all: rewrite check_option_bad by assumption; reflexivity.
Qed.

Lemma jpeg_option_validation_witness :
  select_algo stored_libs "JPEG" 1
    (ex_world (<["level" := VInt 8]>
                 (<["progressive" := VBool true]>
                    {[ "optimize" := VStr "yes" ]})))
  = (Raise (CompressionError "JPEG optimize requires bool input"),
     with_heap
       (ex_world (<["level" := VInt 8]>
                    (<["progressive" := VBool true]>
                       {[ "optimize" := VStr "yes" ]})))
       (<[1%positive :=
            <["ext" := VStr ".jpg"]>
              (<["level" := VInt 8]>
                 (<["progressive" := VBool true]>
                    {[ "optimize" := VStr "yes" ]}))]>
          (heap (ex_world (<["level" := VInt 8]>
                             (<["progressive" := VBool true]>
                                {[ "optimize" := VStr "yes" ]})))))).
Proof.
  refine (proj1 (proj2
    (jpeg_option_validation stored_libs "JPEG" 1
       (ex_world (<["level" := VInt 8]>
                    (<["progressive" := VBool true]>
                       {[ "optimize" := VStr "yes" ]})))
       (<["level" := VInt 8]>
          (<["progressive" := VBool true]> {[ "optimize" := VStr "yes" ]}))
       (VInt 8) (VInt 80) _ _ _ _)) _ _).
  - left. reflexivity.
  - reflexivity.
  - reflexivity.
  - reflexivity.
  - vm_compute. reflexivity.
  - exists (VStr "yes"). split; reflexivity.
Defined.

(** C4 as stated fails on two inputs.  Without [level] the jpeg branch
    stops at [settings["level"]] with [KeyError], before it looks at
    [progressive]; and with both [progressive] and [optimize] of the
    wrong type the error is the one of [progressive], not the one the
    claim gives for [optimize]. *)
Lemma jpeg_option_validation_counterexample :
  let r1 := fst (select_algo stored_libs "jpeg" 1
                   (ex_world {[ "progressive" := VInt 1 ]})) in
  let r2 := fst (select_algo stored_libs "jpeg" 1
                   (ex_world (<["level" := VInt 5]>
                                (<["progressive" := VInt 1]>
                                   {[ "optimize" := VInt 1 ]})))) in
  (r1 = Raise (KeyError "level") /\
   r1 <> Raise (CompressionError "JPEG progressive requires bool")) /\
  (r2 = Raise (CompressionError "JPEG progressive requires bool") /\
   r2 <> Raise (CompressionError "JPEG optimize requires bool input")).
Proof.
  vm_compute. repeat split; discriminate.
Qed.

(** C6.  When jpeg or jpg has been selected on a dictionary [d] that
    contains [level], the tuple stored under [params] starts with the
    quality flag and [level * 10], and goes on with one (flag, value)
    entry for each of progressive, optimize, rst_interval, luma_quality
    and chroma_quality, in this order, that [d] contains; an option [d]
    does not contain adds nothing. *)
Theorem jpeg_params_from_present_options (L : Libs) (algo : string)
    (r : loc) (w w' : World) (d : dict) (level : pyval) :
  lower algo = "jpeg" \/ lower algo = "jpg" ->
  heap w !! r = Some d ->
  d !! "level" = Some level ->
  select_algo L algo r w = (Ok tt, w') ->
  exists quality : pyval,
    py_mul_int level 10 = Ok quality /\
    (forall n : Z, level = VInt n -> quality = VInt (n * 10)) /\
    _settings (self w') = Some r /\
    heap w' !! r =
      Some (<["params" :=
               VTuple ([VInt cv2.IMWRITE_JPEG_QUALITY; quality]
                 ++ opt_entry d "progressive" cv2.IMWRITE_JPEG_PROGRESSIVE
                 ++ opt_entry d "optimize" cv2.IMWRITE_JPEG_OPTIMIZE
                 ++ opt_entry d "rst_interval" cv2.IMWRITE_JPEG_RST_INTERVAL
                 ++ opt_entry d "luma_quality" cv2.IMWRITE_JPEG_LUMA_QUALITY
                 ++ opt_entry d "chroma_quality"
                      cv2.IMWRITE_JPEG_CHROMA_QUALITY)%list]>
              (<["ext" := VStr ".jpg"]> d)).
Proof.
  intros Ha Hr Hl. rewrite (select_algo_jpeg_run L algo r w d Hr Ha).
  cbv zeta. rewrite Hl.
  destruct (py_mul_int level 10) as [quality|e] eqn:Hq; [|discriminate].
  destruct (jpeg_params d quality) as [ps|e] eqn:Hp; [|discriminate].
  intros [= <-]. exists quality. split; [reflexivity|]. split.
  { intros n ->. by injection Hq as <-. }
  split; [reflexivity|]. cbn [heap]. rewrite lookup_insert_eq.
  do 3 f_equal. unfold jpeg_params in Hp.
  repeat match type of Hp with
  | (check_option ?d0 ?k ?i ?f ?m ?p ≫= _) = _ =>
      let E := fresh "E" in
      destruct (check_option d0 k i f m p) eqn:E; [|discriminate Hp];
      cbn [mbind result_bind] in Hp;
      apply check_option_inv in E as [_ ->]
  end.
  apply check_option_inv in Hp as [_ ->].
  by rewrite <- !app_assoc.
Qed.

Lemma jpeg_params_from_present_options_witness :
  exists quality : pyval,
    py_mul_int (VInt 8) 10 = Ok quality /\
    (forall n : Z, VInt 8 = VInt n -> quality = VInt (n * 10)) /\
    _settings (self (snd (select_algo stored_libs "jpg" 1
        (ex_world (<["level" := VInt 8]> {[ "optimize" := VBool true ]})))))
      = Some 1%positive /\
    heap (snd (select_algo stored_libs "jpg" 1
        (ex_world (<["level" := VInt 8]> {[ "optimize" := VBool true ]}))))
      !! 1%positive =
      Some (<["params" :=
               VTuple ([VInt cv2.IMWRITE_JPEG_QUALITY; quality]
                 ++ opt_entry (<["level" := VInt 8]>
                                 {[ "optimize" := VBool true ]})
                      "progressive" cv2.IMWRITE_JPEG_PROGRESSIVE
                 ++ opt_entry (<["level" := VInt 8]>
                                 {[ "optimize" := VBool true ]})
                      "optimize" cv2.IMWRITE_JPEG_OPTIMIZE
                 ++ opt_entry (<["level" := VInt 8]>
                                 {[ "optimize" := VBool true ]})
                      "rst_interval" cv2.IMWRITE_JPEG_RST_INTERVAL
                 ++ opt_entry (<["level" := VInt 8]>
                                 {[ "optimize" := VBool true ]})
                      "luma_quality" cv2.IMWRITE_JPEG_LUMA_QUALITY
                 ++ opt_entry (<["level" := VInt 8]>
                                 {[ "optimize" := VBool true ]})
                      "chroma_quality" cv2.IMWRITE_JPEG_CHROMA_QUALITY)%list]>
              (<["ext" := VStr ".jpg"]>
                 (<["level" := VInt 8]> {[ "optimize" := VBool true ]}))).
Proof.
  apply (jpeg_params_from_present_options stored_libs "jpg" 1
           (ex_world (<["level" := VInt 8]> {[ "optimize" := VBool true ]}))
           _ (<["level" := VInt 8]> {[ "optimize" := VBool true ]}) (VInt 8)).
  - right. reflexivity.
  - reflexivity.
  - reflexivity.
  - vm_compute. reflexivity.
Defined.

(** The selection of jpeg succeeds when [level] can be multiplied and
    every option is absent or of its type. *)
Lemma select_algo_jpeg_succeeds (L : Libs) (algo : string) (r : loc)
    (w : World) (d : dict) (level quality : pyval) :
  lower algo = "jpeg" \/ lower algo = "jpg" ->
  heap w !! r = Some d ->
  d !! "level" = Some level ->
  py_mul_int level 10 = Ok quality ->
  option_ok d "progressive" isinstance_bool ->
  option_ok d "optimize" isinstance_bool ->
  option_ok d "rst_interval" isinstance_int ->
  option_ok d "luma_quality" isinstance_int ->
  option_ok d "chroma_quality" isinstance_int ->
  fst (select_algo L algo r w) = Ok tt.
Proof.
  intros Ha Hr Hl Hq H1 H2 H3 H4 H5.
  rewrite (select_algo_jpeg_run L algo r w d Hr Ha). cbv zeta.
  rewrite Hl, Hq. unfold jpeg_params.
  repeat (rewrite check_option_ok by assumption; cbn [mbind result_bind]).
  reflexivity.
Qed.

Lemma opt_entry_present (d : dict) (key : string) (flag : Z) :
  opt_entry d key flag <> [] <-> is_Some (d !! key).
Proof.
  unfold opt_entry. destruct (d !! key) as [v|]; split.
  - intros _. by exists v.
  - discriminate.
  - intros H. by destruct H.
  - intros [v Hv]. discriminate Hv.
Qed.

(** ** zlib *)

(** C5, as the code has it.  Selecting zlib leaves the settings
    dictionary as it is and installs it, and the resolved encode
    function hands the whole dictionary to [zlib.compress] as keyword
    arguments: a [level] in the settings is the codec's [level]. *)
Theorem zlib_settings_are_the_keywords (L : Libs) (algo : string) (r : loc)
    (w : World) :
  lower algo = "zlib" ->
  select_algo L algo r w =
    (Ok tt,
     mk_World (heap w) (fs w)
       (installed (self w) (_decorate_builtin_compress (zlib_compress L))
          (_decorate_builtin_decompress (zlib_decompress L)) r))
  /\
  forall (img : ndarray) (kwargs : dict),
    _decorate_builtin_compress (zlib_compress L) img kwargs =
    zlib_compress L img kwargs.
Proof.
  intros Ha. split; [by apply select_algo_zlib_run|].
  intros img kwargs. apply builtin_compress_call.
Qed.

Lemma zlib_settings_are_the_keywords_witness :
  select_algo probe_libs "zlib" 1 (ex_world {[ "level" := VInt 9 ]}) =
    (Ok tt,
     mk_World (heap (ex_world {[ "level" := VInt 9 ]}))
       (fs (ex_world {[ "level" := VInt 9 ]}))
       (installed (self (ex_world {[ "level" := VInt 9 ]}))
          (_decorate_builtin_compress (zlib_compress probe_libs))
          (_decorate_builtin_decompress (zlib_decompress probe_libs)) 1))
  /\
  forall (img : ndarray) (kwargs : dict),
    _decorate_builtin_compress (zlib_compress probe_libs) img kwargs =
    zlib_compress probe_libs img kwargs.
Proof.
  apply (zlib_settings_are_the_keywords probe_libs "zlib" 1
           (ex_world {[ "level" := VInt 9 ]})).
  reflexivity.
Defined.

(** C5 as stated fails.  With a [zlib.compress] that answers with the
    [level] keyword it received, selecting zlib on [{"level": 9}] and
    encoding gives the answer for level 9, not the answer of a call
    without the keyword, which is where zlib's default would apply. *)
Lemma zlib_level_reaches_codec :
  let w' := snd (select_algo probe_libs "zlib" 1
                   (ex_world {[ "level" := VInt 9 ]})) in
  exists (comp : comp_met_t) (kwargs : dict),
    _comp_met (self w') = Some comp /\
    _settings (self w') = Some 1%positive /\
    heap w' !! 1%positive = Some kwargs /\
    kwargs !! "level" = Some (VInt 9) /\
    comp tiny_image kwargs = Ok [x09] /\
    zlib_compress probe_libs tiny_image ∅ = Ok [] /\
    comp tiny_image kwargs <> zlib_compress probe_libs tiny_image ∅.
Proof.
  exists (_decorate_builtin_compress (zlib_compress probe_libs)),
         {[ "level" := VInt 9 ]}.
  repeat (split; [reflexivity|]). discriminate.
Qed.

(** ** Construction *)

(** C7.  [Compressor(res_dir)] behaves as [Compressor(res_dir, "lzma",
    {"level": 9})] on a new dictionary: it installs the lzma codec
    pair and leaves that dictionary as [{"preset": 9}], a preset
    within 0..9; and in general selecting lzma moves the value of
    [level] to [preset]. *)
Theorem init_default_is_lzma_preset_9 (L : Libs) (rd : Path) (w : World) :
  let r := fresh (dom (heap w)) in
  __init__ L rd None None w =
    (Ok tt,
     mk_World (<[r := {[ "preset" := VInt 9 ]}]> (heap w)) (fs w)
       (mk_Compressor rd (path_div rd "rendering") ".exr" [] None
          (Some (_decorate_builtin_compress (lzma_compress L)))
          (Some (_decorate_builtin_decompress (lzma_decompress L)))
          (Some r)))
  /\ heap w !! r = None
  /\ (0 <= 9 <= 9)%Z
  /\ __init__ L rd None None w =
     __init__ L rd (Some "lzma") (Some r)
       (with_heap w (<[r := {[ "level" := VInt 9 ]}]> (heap w)))
  /\ forall (algo : string) (r0 : loc) (w0 : World) (d : dict) (v : pyval),
       lower algo = "lzma" ->
       heap w0 !! r0 = Some d ->
       d !! "level" = Some v ->
       select_algo L algo r0 w0 =
         (Ok tt,
          mk_World (<[r0 := delete "level" (<["preset" := v]> d)]> (heap w0))
            (fs w0)
            (installed (self w0)
               (_decorate_builtin_compress (lzma_compress L))
               (_decorate_builtin_decompress (lzma_decompress L)) r0)).
Proof.
  intros r.
  assert (Hrun : forall w1 : World,
    heap w1 !! r = Some ({[ "level" := VInt 9 ]} : dict) ->
    select_algo L "lzma" r w1 =
      (Ok tt,
       mk_World (<[r := {[ "preset" := VInt 9 ]}]> (heap w1)) (fs w1)
         (installed (self w1) (_decorate_builtin_compress (lzma_compress L))
            (_decorate_builtin_decompress (lzma_decompress L)) r))).
  { intros w1 H1.
    rewrite (select_algo_lzma_run L "lzma" r w1 _ H1 (VInt 9));
      [|reflexivity|reflexivity].
    reflexivity. }
  split; [|split; [|split; [|split]]].
  - unfold __init__. rewrite bind_run. unfold put_self at 1. cbv iota beta.
    rewrite bind_run. unfold dict_new. cbv iota beta zeta.
    cbn [heap fs self]. fold r.
    rewrite Hrun by (cbn [heap]; apply lookup_insert_eq).
    cbn [heap fs self installed res_dir image_dir image_extension imgs
         img_ids]. by rewrite insert_insert_eq.
  - apply not_elem_of_dom. apply is_fresh.
  - done.
  - unfold __init__. rewrite !bind_run. unfold put_self at 1 2.
    cbv iota beta. rewrite !bind_run. unfold dict_new, mret, M_ret.
    cbv iota beta zeta. cbn [heap fs self with_heap]. fold r.
    reflexivity.
  - intros algo r0 w0 d v Ha H0 Hv. by apply select_algo_lzma_run.
Qed.

Lemma init_default_is_lzma_preset_9_witness :
  select_algo stored_libs "LZMA" 1 (ex_world {[ "level" := VInt 6 ]}) =
    (Ok tt,
     mk_World
       (<[1%positive :=
            delete "level" (<["preset" := VInt 6]> {[ "level" := VInt 6 ]})]>
          (heap (ex_world {[ "level" := VInt 6 ]})))
       (fs (ex_world {[ "level" := VInt 6 ]}))
       (installed (self (ex_world {[ "level" := VInt 6 ]}))
          (_decorate_builtin_compress (lzma_compress stored_libs))
          (_decorate_builtin_decompress (lzma_decompress stored_libs)) 1)).
Proof.
  apply (proj2 (proj2 (proj2 (proj2
    (init_default_is_lzma_preset_9 stored_libs ["res"]
       (ex_world {[ "level" := VInt 6 ]}))))) "LZMA" 1%positive
    (ex_world {[ "level" := VInt 6 ]}) {[ "level" := VInt 6 ]} (VInt 6));
    reflexivity.
Defined.

(** ** Compressing *)

Lemma compress_run (L : Libs) (w : World) (comp : comp_met_t) (r : loc)
    (kwargs : dict) (id : string) (rest : list string) (img : ndarray)
    (a : bytes) :
  _comp_met (self w) = Some comp ->
  _settings (self w) = Some r ->
  heap w !! r = Some kwargs ->
  img_ids (self w) = Some (id :: rest) ->
  comp img kwargs = Ok a ->
  write_ok L (fs w) (path_str (path_div (image_dir (self w)) id)) a ->
  compress L img w =
    (Ok a,
     mk_World (heap w)
       (<[path_str (path_div (image_dir (self w)) id) := a]> (fs w))
       (self w)).
Proof.
  intros Hc Hs Hh Hi Ha [Ho Hw].
  cbv [compress getattr first_img_id get_self deref lift file_write raise
       mbind M_bind mret M_ret].
  rewrite Hc, Hs. cbv beta iota. rewrite Hh. cbv beta iota.
  rewrite Ha. cbv beta iota. rewrite Hi. cbv beta iota.
  by rewrite Ho, Hw.
Qed.

(** A run of [compress] calls, as [compress_series] makes them, leaves
    in the destination file the artifact of the last call. *)
Lemma compress_seq_run (L : Libs) (comp : comp_met_t) (r : loc)
    (kwargs : dict) (id : string) (rest : list string)
    (images : list ndarray) (arts : list bytes) :
  Forall2 (fun img a => comp img kwargs = Ok a) images arts ->
  forall w : World,
    _comp_met (self w) = Some comp ->
    _settings (self w) = Some r ->
    heap w !! r = Some kwargs ->
    img_ids (self w) = Some (id :: rest) ->
    writes_ok L (fs w) (path_str (path_div (image_dir (self w)) id)) arts ->
    for_each images (fun img => compress L img;; mret tt) w =
      (Ok tt,
       mk_World (heap w)
         (match last arts with
          | Some a => <[path_str (path_div (image_dir (self w)) id) := a]> (fs w)
          | None => fs w
          end)
         (self w)).
Proof.
  induction 1 as [|img a images arts Ha Hrest IH]; intros w Hc Hs Hh Hi Hw.
  - cbn [for_each last]. by destruct w.
  - cbn [for_each]. rewrite !bind_run. destruct Hw as [Hw1 Hw2].
    rewrite (compress_run L w comp r kwargs id rest img a Hc Hs Hh Hi Ha Hw1).
    cbv beta iota. unfold mret at 1, M_ret at 1. cbv beta iota.
    rewrite IH by assumption. cbn [heap fs self].
    destruct arts as [|a' arts']; [reflexivity|].
    change (last (a :: a' :: arts')) with (last (a' :: arts')).
    destruct (last (a' :: arts')) as [b|] eqn:El.
    + by rewrite insert_insert_eq.
    + by apply last_None in El.
Qed.

(** C8.  On a configured [Compressor] with loaded frame identifiers,
    every call of [compress] whose destination opens and takes the
    write, whatever the files hold at that moment, returns the artifact
    the resolved encode function produced and writes it to the file
    [image_dir / img_ids[0]], named after the first frame identifier
    and not after the image; the call changes neither [image_dir] nor
    [img_ids].  So a run of calls on different images writes one file
    over and over, and what it holds in the end is the artifact of the
    last call alone. *)
Theorem compress_writes_first_id_file (L : Libs) (w : World)
    (comp : comp_met_t) (r : loc) (kwargs : dict) (id : string)
    (rest : list string) :
  _comp_met (self w) = Some comp ->
  _settings (self w) = Some r ->
  heap w !! r = Some kwargs ->
  img_ids (self w) = Some (id :: rest) ->
  let dest := path_str (path_div (image_dir (self w)) id) in
  (forall (files : FS) (img : ndarray) (a : bytes),
     comp img kwargs = Ok a ->
     write_ok L files dest a ->
     compress L img (mk_World (heap w) files (self w)) =
       (Ok a, mk_World (heap w) (<[dest := a]> files) (self w))) /\
  (forall (images : list ndarray) (arts : list bytes) (a_last : bytes),
     Forall2 (fun img a => comp img kwargs = Ok a) images arts ->
     writes_ok L (fs w) dest arts ->
     last arts = Some a_last ->
     for_each images (fun img => compress L img;; mret tt) w =
       (Ok tt, mk_World (heap w) (<[dest := a_last]> (fs w)) (self w))).
Proof.
  intros Hc Hs Hh Hi dest. split.
  - intros files img a Ha Hw.
    by rewrite (compress_run L (mk_World (heap w) files (self w)) comp r
                  kwargs id rest img a Hc Hs Hh Hi Ha Hw).
  - intros images arts a_last Hall Hw Hlast.
    rewrite (compress_seq_run L comp r kwargs id rest images arts Hall w
               Hc Hs Hh Hi Hw).
    by rewrite Hlast.
Qed.

Lemma compress_writes_first_id_file_witness :
  let w := mk_World {[ 1%positive := {[ "preset" := VInt 9 ]} ]} ∅
             (mk_Compressor ["res"] ["res"; "rendering"] ".exr" []
                (Some ["0001"; "0002"])
                (Some (_decorate_builtin_compress (lzma_compress stored_libs)))
                (Some (_decorate_builtin_decompress
                         (lzma_decompress stored_libs)))
                (Some 1%positive)) in
  let img2 := mk_ndarray float32 [1%N] [x00; x00; x00; x40] in
  let dest := "res/rendering/0001" in
  compress (demo_libs []) tiny_image w =
    (Ok (data tiny_image),
     mk_World (heap w) (<[dest := data tiny_image]> (fs w)) (self w)) /\
  for_each [tiny_image; img2] (fun img => compress (demo_libs []) img;; mret tt)
    w =
    (Ok tt, mk_World (heap w) (<[dest := data img2]> (fs w)) (self w)).
Proof.
  intros w img2 dest.
  destruct (compress_writes_first_id_file (demo_libs []) w
              (_decorate_builtin_compress (lzma_compress stored_libs))
              1%positive {[ "preset" := VInt 9 ]} "0001" ["0002"]
              eq_refl eq_refl eq_refl eq_refl) as [H1 H2].
  split.
  - apply (H1 (fs w) tiny_image (data tiny_image) eq_refl).
    split; reflexivity.
  - apply (H2 [tiny_image; img2] [data tiny_image; data img2] (data img2)).
    + repeat constructor.
    + repeat split.
    + reflexivity.
Defined.

(** ** Loading images *)

Lemma load_one_run (L : Libs) (id : string) (w : World) :
  load_one L id w =
    match read_openexr_image L (fs w) (img_path (self w) id) with
    | Ok img =>
        (Ok tt,
         mk_World (heap w) (fs w)
           (set_imgs (self w) (imgs (self w) ++ [img])%list))
    | Raise e => (Raise e, w)
    end.
Proof.
  cbv [load_one get_self get_fs lift put_self mbind M_bind mret M_ret].
  fold (img_path (self w) id).
  by destruct (read_openexr_image L (fs w) (img_path (self w) id)).
Qed.

(** The loop appends what it reads, in order, and changes nothing
    else; when it ends normally it has read every identifier. *)
Lemma load_loop_run (L : Libs) (ids : list string) (w : World) :
  exists new : list ndarray,
    snd (for_each ids (load_one L) w) =
      mk_World (heap w) (fs w) (set_imgs (self w) ((imgs (self w) ++ new)%list)) /\
    (fst (for_each ids (load_one L) w) = Ok tt ->
     Forall2 (fun id img =>
                read_openexr_image L (fs w) (img_path (self w) id) = Ok img)
             ids new).
Proof.
  revert w. induction ids as [|id ids IH]; intros w.
  - exists []. split; [|constructor].
    cbn [for_each]. rewrite app_nil_r. by destruct w as [h f []].
  - cbn [for_each]. rewrite bind_run, load_one_run.
    destruct (read_openexr_image L (fs w) (img_path (self w) id))
      as [img|e] eqn:E.
    + destruct (IH (mk_World (heap w) (fs w)
                      (set_imgs (self w) (imgs (self w) ++ [img])%list)))
        as (new & Hw & Hok).
      exists (img :: new). cbn [heap fs self set_imgs imgs] in Hw, Hok.
      split.
      * rewrite Hw. unfold set_imgs. cbn. by rewrite <- app_assoc.
      * intros H. constructor; [exact E | by apply Hok].
    + exists []. split; [|discriminate].
      cbn [snd]. rewrite app_nil_r. by destruct w as [h f []].
Qed.

Lemma get_frame_ids_run (L : Libs) (w : World) :
  exists ids : list string, get_frame_ids L w = (Ok ids, w).
Proof. eexists. reflexivity. Qed.

Lemma load_images_loop (L : Libs) (ids : option (list string)) (w : World) :
  exists l : list string,
    (forall l0, ids = Some l0 -> l = l0) /\
    load_images L ids w =
      for_each l (load_one L)
        (mk_World (heap w) (fs w) (set_img_ids (self w) l)).
Proof.
  destruct ids as [l0|].
  - exists l0. split; [by intros ? [= ->]|]. reflexivity.
  - destruct (get_frame_ids_run L w) as [l Hl]. exists l.
    split; [discriminate|].
    unfold load_images. rewrite bind_run, Hl. reflexivity.
Qed.

Lemma load_images_appends (L : Libs) (ids : option (list string))
    (w : World) :
  exists new : list ndarray,
    imgs (self (snd (load_images L ids w))) = (imgs (self w) ++ new)%list /\
    heap (snd (load_images L ids w)) = heap w /\
    fs (snd (load_images L ids w)) = fs w /\
    (forall l, ids = Some l -> fst (load_images L ids w) = Ok tt ->
       Forall2 (fun id img =>
                  read_openexr_image L (fs w) (img_path (self w) id) = Ok img)
               l new).
Proof.
  destruct (load_images_loop L ids w) as (l & Hl & ->).
  destruct (load_loop_run L l
              (mk_World (heap w) (fs w) (set_img_ids (self w) l)))
    as (new & Hw & Hok).
  exists new. rewrite Hw. cbn [heap fs self set_imgs set_img_ids imgs].
  repeat split. intros l0 H0 Hfst. apply Hl in H0 as ->. by apply Hok.
Qed.

(** C9.  Whatever sequence of [load_images] calls is run, up to its end
    or to the first exception, the image list of the start is a prefix
    of the image list of the end: nothing is removed or reordered.  A
    call on explicit identifiers that ends normally has appended
    exactly the images read for them, in order. *)
Theorem load_images_accumulates (L : Libs) :
  (forall (calls : list (option (list string))) (w : World),
     imgs (self w) `prefix_of`
     imgs (self (snd (for_each calls (load_images L) w)))) /\
  (forall (ids : list string) (w w' : World),
     load_images L (Some ids) w = (Ok tt, w') ->
     exists new : list ndarray,
       imgs (self w') = (imgs (self w) ++ new)%list /\
       List.length new = List.length ids /\
       Forall2 (fun id img =>
                  read_openexr_image L (fs w) (img_path (self w) id) = Ok img)
               ids new).
Proof.
  split.
  - intros calls. induction calls as [|c calls IH]; intros w.
    + reflexivity.
    + cbn [for_each]. rewrite bind_run.
      destruct (load_images_appends L c w) as (new & Hi & _).
      destruct (load_images L c w) as [[[]|e] w1]; cbn [snd] in *.
      * etrans; [|apply IH]. rewrite Hi. by apply prefix_app_r.
      * rewrite Hi. by apply prefix_app_r.
  - intros ids w w' H.
    destruct (load_images_appends L (Some ids) w) as (new & Hi & _ & _ & Hok).
    rewrite H in Hi, Hok. cbn [fst snd] in Hi, Hok.
    specialize (Hok ids eq_refl eq_refl).
    exists new. split; [exact Hi|]. split; [|exact Hok].
    symmetry. by eapply Forall2_length.
Qed.

Lemma load_images_accumulates_witness :
  exists new : list ndarray,
    imgs (self (snd (load_images stored_libs (Some ["0001"; "0002"])
                       (ex_world ∅))))
      = (imgs (self (ex_world ∅)) ++ new)%list /\
    List.length new = List.length ["0001"; "0002"] /\
    Forall2 (fun id img =>
               read_openexr_image stored_libs (fs (ex_world ∅))
                 (img_path (self (ex_world ∅)) id) = Ok img)
            ["0001"; "0002"] new.
Proof.
  apply (proj2 (load_images_accumulates stored_libs) ["0001"; "0002"]
           (ex_world ∅)).
  reflexivity.
Defined.

(** ** Failure of a selection *)

(** C10.  A call of [select_algo] that raises leaves [_comp_met],
    [_decomp_met] and [_settings] (and every other attribute, every
    file and every dictionary other than the one passed in) as they
    were: the three attributes are assigned after the last statement
    that can raise.  The dictionary passed in may have changed: a jpeg
    selection that rejects [progressive] has already stored [ext]. *)
Theorem select_algo_failure_keeps_configuration :
  (forall (L : Libs) (algo : string) (r : loc) (w w' : World) (e : exn),
     select_algo L algo r w = (Raise e, w') ->
     _comp_met (self w') = _comp_met (self w) /\
     _decomp_met (self w') = _decomp_met (self w) /\
     _settings (self w') = _settings (self w) /\
     self w' = self w /\
     fs w' = fs w /\
     forall l : loc, l <> r -> heap w' !! l = heap w !! l) /\
  (let w := ex_world (<["level" := VInt 5]> {[ "progressive" := VInt 1 ]}) in
   let w' := snd (select_algo stored_libs "jpeg" 1 w) in
   fst (select_algo stored_libs "jpeg" 1 w) =
     Raise (CompressionError "JPEG progressive requires bool") /\
   (heap w !! 1%positive ≫= fun d : dict => d !! "ext") = None /\
   (heap w' !! 1%positive ≫= fun d : dict => d !! "ext")
     = Some (VStr ".jpg")).
Proof.
  split.
  - intros L algo r w w' e H.
    apply select_algo_raise_frame in H as (Hs & Hf & Hh).
    rewrite Hs. by repeat split.
  - vm_compute. by repeat split.
Qed.

Lemma select_algo_failure_keeps_configuration_witness :
  let w := ex_world {[ "progressive" := VBool true ]} in
  let w' := with_heap w
              {[ 1%positive := <["ext" := VStr ".jpg"]>
                                 {[ "progressive" := VBool true ]} ]} in
  _comp_met (self w') = _comp_met (self w) /\
  _decomp_met (self w') = _decomp_met (self w) /\
  _settings (self w') = _settings (self w) /\
  self w' = self w /\
  fs w' = fs w /\
  forall l : loc, l <> 1%positive -> heap w' !! l = heap w !! l.
Proof.
  intros w w'.
  apply (proj1 select_algo_failure_keeps_configuration stored_libs "jpeg"
           1%positive w w' (KeyError "level")).
  vm_compute. reflexivity.
Defined.

(** * Further properties of the module *)

(** ** Strings *)

Lemma append_cons (c : ascii) (s t : string) :
  String c s ++ t = String c (s ++ t).
Proof. reflexivity. Qed.

Lemma append_nil_l (s : string) : "" ++ s = s.
Proof. reflexivity. Qed.

Lemma append_nil_r (s : string) : s ++ "" = s.
Proof. induction s as [|c s IH]; [done | by rewrite append_cons, IH]. Qed.

Lemma append_assoc (a b c : string) : (a ++ b) ++ c = a ++ (b ++ c).
Proof. induction a as [|x a IH]; [done | by rewrite !append_cons, IH]. Qed.

Lemma rev_onto_acc (s a b : string) :
  str_rev_onto s (a ++ b) = str_rev_onto s a ++ b.
Proof.
  revert a. induction s as [|c s IH]; intros a; [done|].
  cbn [str_rev_onto]. by rewrite <- IH, append_cons.
Qed.

Lemma rev_onto_app (s t acc : string) :
  str_rev_onto (s ++ t) acc = str_rev_onto t (str_rev_onto s acc).
Proof.
  revert acc. induction s as [|c s IH]; intros acc; [done|].
  rewrite append_cons. apply IH.
Qed.

Lemma rev_onto_rev (s a b : string) :
  str_rev_onto (str_rev_onto s a) b = str_rev_onto a (s ++ b).
Proof.
  revert a b. induction s as [|c s IH]; intros a b; [done|].
  cbn [str_rev_onto]. by rewrite IH, append_cons.
Qed.

Lemma rev_rev (s : string) : str_rev_onto (str_rev_onto s "") "" = s.
Proof. rewrite rev_onto_rev. apply append_nil_r. Qed.

Lemma rev_length (s acc : string) :
  String.length (str_rev_onto s acc) = (String.length s + String.length acc)%nat.
Proof.
  revert acc. induction s as [|c s IH]; intros acc; [done|].
  cbn. rewrite IH. cbn. lia.
Qed.

Lemma rev_app (s t : string) :
  str_rev_onto (s ++ t) "" = str_rev_onto t "" ++ str_rev_onto s "".
Proof.
  rewrite rev_onto_app. rewrite <- rev_onto_acc. by rewrite append_nil_l.
Qed.

Lemma rev_all_in (chars s acc : string) :
  str_all_in chars s = true -> str_all_in chars acc = true ->
  str_all_in chars (str_rev_onto s acc) = true.
Proof.
  revert acc. induction s as [|c s IH]; intros acc Hs Ha; [done|].
  cbn in Hs. apply andb_prop in Hs as [Hc Hs]. cbn. apply IH; [done|].
  cbn. by rewrite Hc, Ha.
Qed.

Lemma rev_head_last (s : string) (c : ascii) :
  str_last s = Some c -> exists t, str_rev_onto s "" = String c t.
Proof.
  induction s as [|x s IH]; [done|]. cbn [str_last].
  destruct s as [|y s'].
  - intros [= ->]. by exists "".
  - intros H. destruct (IH H) as [t Ht]. exists (t ++ String x "").
    change (str_rev_onto (String x (String y s')) "")
      with (str_rev_onto (String y s') (String x "")).
    change (String x "") with ("" ++ String x ""). by rewrite rev_onto_acc, Ht.
Qed.

Lemma lstrip_stop (chars : string) (c : ascii) (s : string) :
  str_mem c chars = false -> lstrip chars (String c s) = String c s.
Proof. intros H. cbn. by rewrite H. Qed.

Lemma lstrip_all_in (chars pre s : string) :
  str_all_in chars pre = true -> lstrip chars (pre ++ s) = lstrip chars s.
Proof.
  induction pre as [|c pre IH]; [done|]. rewrite append_cons. cbn. intros H.
  apply andb_prop in H as [Hc Hp]. rewrite Hc. by apply IH.
Qed.

Lemma lstrip_length (chars s : string) :
  (String.length (lstrip chars s) <= String.length s)%nat.
Proof.
  induction s as [|c s IH]; [done|]. cbn.
  destruct (str_mem c chars); cbn; lia.
Qed.

Lemma lstrip_app_stop (chars x : string) (c : ascii) (y : string) :
  str_mem c chars = false ->
  lstrip chars (x ++ String c y) = lstrip chars x ++ String c y.
Proof.
  intros H. induction x as [|d x IH].
  - rewrite append_nil_l. cbn. by rewrite H.
  - rewrite append_cons. cbn. destruct (str_mem d chars); [exact IH | done].
Qed.

Lemma lstrip_app (chars s t : string) :
  lstrip chars (s ++ t) =
  match lstrip chars s with
  | EmptyString => lstrip chars t
  | String c r => String c r ++ t
  end.
Proof.
  induction s as [|d s IH].
  - rewrite append_nil_l. cbn. by destruct (lstrip chars t).
  - rewrite append_cons. cbn. destruct (str_mem d chars); [exact IH | done].
Qed.

Lemma strip_length (chars s : string) :
  (String.length (strip chars s) <= String.length s)%nat.
Proof.
  unfold strip. rewrite rev_length. cbn.
  pose proof (lstrip_length chars (str_rev_onto (lstrip chars s) "")).
  rewrite rev_length in H. cbn in H.
  pose proof (lstrip_length chars s). lia.
Qed.

Lemma strip_prefix_in (chars pre s : string) :
  str_all_in chars pre = true -> strip chars (pre ++ s) = strip chars s.
Proof. intros H. unfold strip. by rewrite lstrip_all_in. Qed.

Lemma strip_suffix_in (chars s suf : string) :
  str_all_in chars suf = true -> strip chars (s ++ suf) = strip chars s.
Proof.
  intros H. unfold strip. rewrite lstrip_app.
  destruct (lstrip chars s) as [|c r] eqn:E.
  - assert (lstrip chars suf = "") as ->; [|done].
    rewrite <- (append_nil_r suf). rewrite lstrip_all_in; done.
  - rewrite rev_app. rewrite lstrip_all_in; [done|]. by apply rev_all_in.
Qed.

(** a part that starts and ends with characters outside [chars] stays *)
Lemma strip_keeps_prefix (chars p s : string) (f l : ascii) :
  str_head p = Some f -> str_last p = Some l ->
  str_mem f chars = false -> str_mem l chars = false ->
  exists t, strip chars (p ++ s) = p ++ t /\
            (String.length t <= String.length s)%nat.
Proof.
  intros Hf Hl Hfc Hlc. unfold strip.
  destruct p as [|f' p']; [done|]. injection Hf as ->.
  change (String f p' ++ s) with (String f (p' ++ s)).
  rewrite lstrip_stop by done.
  change (String f (p' ++ s)) with (String f p' ++ s).
  rewrite rev_app. destruct (rev_head_last _ _ Hl) as [y Hy]. rewrite Hy.
  rewrite lstrip_app_stop by done. rewrite <- Hy.
  rewrite rev_app, rev_rev.
  eexists. split; [reflexivity|].
  rewrite rev_length. cbn.
  pose proof (lstrip_length chars (str_rev_onto s "")).
  rewrite rev_length in H. cbn in H. lia.
Qed.

Lemma strip_exact (chars pre mid suf : string) (f l : ascii) :
  str_all_in chars pre = true -> str_all_in chars suf = true ->
  str_head mid = Some f -> str_last mid = Some l ->
  str_mem f chars = false -> str_mem l chars = false ->
  strip chars (pre ++ mid ++ suf) = mid.
Proof.
  intros Hp Hs Hf Hl Hfc Hlc.
  rewrite strip_prefix_in, strip_suffix_in by done.
  rewrite <- (append_nil_r mid) at 1.
  destruct (strip_keeps_prefix chars mid "" f l Hf Hl Hfc Hlc) as (t & -> & Ht).
  destruct t; [apply append_nil_r | cbn in Ht; lia].
Qed.

Lemma str_last_cons (x : ascii) (u : string) :
  u <> "" -> str_last (String x u) = str_last u.
Proof. by destruct u. Qed.

Lemma str_last_app (s t : string) (c : ascii) :
  str_last t = Some c -> str_last (s ++ t) = Some c.
Proof.
  intros H. induction s as [|x s IH]; [done|].
  rewrite append_cons, str_last_cons; [exact IH|].
  intros E. rewrite E in IH. discriminate IH.
Qed.

Lemma str_last_none (s : string) : str_last s = None -> s = "".
Proof.
  induction s as [|x s IH]; [done|]. destruct s as [|y s']; [done|].
  intros H. by apply IH in H.
Qed.

Lemma str_last_snoc (s : string) (c : ascii) :
  str_last s = Some c -> exists b, s = b ++ String c "".
Proof.
  induction s as [|x s IH]; [done|]. cbn. destruct s as [|y s'].
  - intros [= ->]. by exists "".
  - intros H. destruct (IH H) as [b Hb]. exists (String x b).
    by rewrite append_cons, <- Hb.
Qed.

Lemma strip_ext_exact (id : string) (l : ascii) :
  str_last id = Some l -> str_mem l ".exr" = false ->
  strip ".exr" ("Comp_" ++ id ++ ".exr") = "Comp_" ++ id.
Proof.
  intros Hl H. rewrite <- append_assoc.
  apply (strip_exact ".exr" "" ("Comp_" ++ id) ".exr" "C" l); try done.
  by apply str_last_app.
Qed.

Lemma strip_scene_exact (id : string) (l : ascii) :
  str_last id = Some l -> str_mem l "Comp" = false ->
  strip "Comp" ("Comp_" ++ id) = "_" ++ id.
Proof.
  intros Hl H. change ("Comp_" ++ id) with ("Comp" ++ ("_" ++ id)).
  rewrite <- (append_nil_r ("_" ++ id)) at 1.
  apply (strip_exact "Comp" "Comp" ("_" ++ id) "" "_" l); try done.
  by apply str_last_app.
Qed.

Lemma strip_ext_bound (id : string) :
  exists t, strip ".exr" ("Comp_" ++ id ++ ".exr") = "Comp_" ++ t /\
            (String.length t <= String.length id)%nat.
Proof.
  rewrite <- append_assoc, strip_suffix_in by done.
  by apply (strip_keeps_prefix ".exr" "Comp_" id "C" "_").
Qed.

Lemma strip_scene_bound (id : string) :
  exists t, strip "Comp" ("Comp_" ++ id) = "_" ++ t /\
            (String.length t <= String.length id)%nat.
Proof.
  change ("Comp_" ++ id) with ("Comp" ++ ("_" ++ id)).
  rewrite strip_prefix_in by done.
  by apply (strip_keeps_prefix "Comp" "_" id "_" "_").
Qed.

Lemma strip_underscore_bound (id : string) :
  (String.length (strip "_" ("_" ++ id)) <= String.length id)%nat.
Proof. rewrite strip_prefix_in by done. apply strip_length. Qed.

Lemma length_snoc (b : string) (c : ascii) :
  String.length (b ++ String c "") = S (String.length b).
Proof.
  induction b as [|x b IH]; [done|]. rewrite append_cons. cbn. by rewrite IH.
Qed.

(** The identifier extracted from [Comp_<id>.exr] is never longer than
    [id], and shorter when [id] is not clean. *)
Lemma unclean_id_shrinks (id : string) :
  id <> "" -> clean_id id = false ->
  (String.length (frame_id_of ".exr" ("Comp_" ++ id ++ ".exr"))
   < String.length id)%nat.
Proof.
  intros Hne Hc. unfold frame_id_of.
  destruct id as [|f rest]; [done|].
  remember (String f rest) as id eqn:Eid.
  assert (Hf : str_head id = Some f) by (by rewrite Eid).
  destruct (str_last id) as [l|] eqn:Hl;
    [|apply str_last_none in Hl; congruence].
  destruct (str_last_snoc id l Hl) as [b Hb].
  assert (Hlen : String.length id = S (String.length b))
    by (rewrite Hb; apply length_snoc).
  unfold clean_id in Hc. rewrite Hf, Hl in Hc.
  destruct (str_mem l ".exr") eqn:H1.
  { (* the last character goes with the extension *)
    rewrite Hb at 1. rewrite (append_assoc b), <- (append_assoc "Comp_").
    rewrite strip_suffix_in by (rewrite ?append_cons, ?append_nil_l; cbn [str_all_in]; by rewrite H1).
    destruct (strip_keeps_prefix ".exr" "Comp_" b "C" "_")
      as (t1 & -> & Ht1); try done.
    destruct (strip_scene_bound t1) as (t2 & -> & Ht2).
    pose proof (strip_underscore_bound t2). lia. }
  rewrite (strip_ext_exact id l Hl H1).
  destruct (str_mem l "Comp") eqn:H2.
  { rewrite Hb at 1. change ("Comp_" ++ b ++ String l "")
      with ("Comp" ++ ("_" ++ b ++ String l "")).
    rewrite strip_prefix_in by done.
    rewrite <- (append_assoc "_"), strip_suffix_in by (rewrite ?append_cons, ?append_nil_l; cbn [str_all_in]; by rewrite H2).
    destruct (strip_keeps_prefix "Comp" "_" b "_" "_")
      as (t2 & -> & Ht2); try done.
    pose proof (strip_underscore_bound t2). lia. }
  rewrite (strip_scene_exact id l Hl H2).
  destruct (str_mem l "_") eqn:H3.
  { rewrite Hb at 1. rewrite strip_prefix_in by done.
    rewrite strip_suffix_in by (rewrite ?append_cons, ?append_nil_l; cbn [str_all_in]; by rewrite H3).
    pose proof (strip_length "_" b). lia. }
  cbn [negb] in Hc. rewrite !andb_true_r in Hc.
  apply negb_false_iff in Hc.
  rewrite Eid at 1. change ("_" ++ String f rest)
    with (String "_" (String f "") ++ rest).
  rewrite strip_prefix_in by (rewrite ?append_cons, ?append_nil_l; cbn [str_all_in]; by rewrite Hc).
  pose proof (strip_length "_" rest). rewrite Eid. cbn. lia.
Qed.

Lemma clean_round_trip (id : string) :
  clean_id id = true -> frame_id_of ".exr" ("Comp_" ++ id ++ ".exr") = id.
Proof.
  unfold clean_id, frame_id_of.
  destruct (str_head id) as [f|] eqn:Hf; [|done].
  destruct (str_last id) as [l|] eqn:Hl; [|done].
  intros H. repeat (apply andb_prop in H as [H ?]).
  apply negb_true_iff in H, H0, H1, H2.
  rewrite (strip_ext_exact id l Hl) by done.
  rewrite (strip_scene_exact id l Hl) by done.
  rewrite <- (append_nil_r id) at 1.
  by apply (strip_exact "_" "_" id "" f l).
Qed.

(** ** Frame identifiers *)

Lemma get_frame_ids_value (L : Libs) (w : World) :
  get_frame_ids L w =
    (Ok (map (frame_id_of (image_extension (self w)))
           (glob_names L (fs w) (image_dir (self w))
              ("Comp" ++ "*" ++ image_extension (self w)))),
     w).
Proof. reflexivity. Qed.

Lemma clean_ids_kept (ids : list string) :
  Forall (fun id => clean_id id = true) ids ->
  map (fun id => frame_id_of ".exr" (comp_file_name ".exr" id)) ids = ids.
Proof.
  induction 1 as [|id ids Hid _ IH]; [reflexivity|].
  cbn [map]. rewrite IH. f_equal. by apply clean_round_trip.
Qed.

(** X1.  When the rendering directory lists the files [Comp_<id>.exr]
    of identifiers that are clean, [get_frame_ids] returns exactly
    these identifiers, in the order of the listing, so that
    [load_images()] without identifiers reads the same files as
    [load_images(ids)]. *)
Theorem get_frame_ids_recovers_clean_ids (L : Libs) (w : World)
    (ids : list string) :
  image_extension (self w) = ".exr" ->
  glob_names L (fs w) (image_dir (self w)) "Comp*.exr"
    = map (comp_file_name ".exr") ids ->
  Forall (fun id => clean_id id = true) ids ->
  get_frame_ids L w = (Ok ids, w) /\
  load_images L None w = load_images L (Some ids) w.
Proof.
  intros Hext Hglob Hclean.
  assert (Hids : get_frame_ids L w = (Ok ids, w)).
  { rewrite get_frame_ids_value, Hext.
    change ("Comp" ++ "*" ++ ".exr") with "Comp*.exr". rewrite Hglob.
    by rewrite map_map, clean_ids_kept. }
  split; [exact Hids|].
  unfold load_images. by rewrite bind_run, Hids.
Qed.

Lemma get_frame_ids_recovers_clean_ids_witness :
  get_frame_ids (demo_libs ["Comp_0001.exr"; "Comp_0002.exr"]) (ex_world ∅)
    = (Ok ["0001"; "0002"], ex_world ∅) /\
  load_images (demo_libs ["Comp_0001.exr"; "Comp_0002.exr"]) None (ex_world ∅)
    = load_images (demo_libs ["Comp_0001.exr"; "Comp_0002.exr"])
        (Some ["0001"; "0002"]) (ex_world ∅).
Proof.
  apply (get_frame_ids_recovers_clean_ids
           (demo_libs ["Comp_0001.exr"; "Comp_0002.exr"]) (ex_world ∅)
           ["0001"; "0002"]).
  - reflexivity.
  - reflexivity.
  - repeat constructor.
Defined.

(** X2.  [get_frame_ids] takes characters, not a prefix and a suffix,
    off the file name: from [Comp_<id>.exr] it gives [id] back exactly
    when [id] is clean.  An identifier that starts with an underscore,
    or ends with one of [. e x r C o m p _], comes back shorter. *)
Theorem frame_id_kept_iff_clean (id : string) :
  id <> "" ->
  (frame_id_of ".exr" (comp_file_name ".exr" id) = id <-> clean_id id = true).
Proof.
  intros Hne. unfold comp_file_name. split.
  - intros H. destruct (clean_id id) eqn:Hc; [reflexivity|].
    pose proof (unclean_id_shrinks id Hne Hc) as Hlt. rewrite H in Hlt. lia.
  - apply clean_round_trip.
Qed.

Lemma frame_id_kept_iff_clean_witness :
  (frame_id_of ".exr" (comp_file_name ".exr" "frame") = "frame"
   <-> clean_id "frame" = true) /\
  frame_id_of ".exr" (comp_file_name ".exr" "frame") = "fra".
Proof.
  split; [|reflexivity].
  apply (frame_id_kept_iff_clean "frame"). discriminate.
Defined.

(** ** Names of algorithms *)

Lemma ascii_lower_idem (c : ascii) : ascii_lower (ascii_lower c) = ascii_lower c.
Proof. by destruct c as [[] [] [] [] [] [] [] []]. Qed.

Lemma lower_idem (s : string) : lower (lower s) = lower s.
Proof.
  induction s as [|c s IH]; [reflexivity|].
  cbn [lower]. by rewrite ascii_lower_idem, IH.
Qed.

(** X3.  [select_algo] looks at the name through [lower] only: a name
    and its lower-case form select the same thing, whatever the case
    of the letters. *)
Theorem select_algo_case_insensitive (L : Libs) (algo : string) (r : loc)
    (w : World) :
  select_algo L algo r w = select_algo L (lower algo) r w.
Proof. unfold select_algo. cbv zeta. by rewrite lower_idem. Qed.

(** ** More on selection *)

(** X4.  Selecting bz2 or gzip moves the value of [level], whatever it
    is, to [compresslevel] in the caller's dictionary, keeps every
    other entry, and installs the codec of that name; the resolved
    encode function calls the codec on the image array itself, not on
    its bytes, with the dictionary as keyword arguments. *)
Theorem bz2_gzip_level_becomes_compresslevel (L : Libs) (algo : string)
    (r : loc) (w : World) (d : dict) (v : pyval) :
  heap w !! r = Some d ->
  d !! "level" = Some v ->
  let d' := delete "level" (<["compresslevel" := v]> d) in
  let done (c : compress_fn) (dc : decompress_fn) :=
    select_algo L algo r w =
      (Ok tt,
       mk_World (<[r := d']> (heap w)) (fs w)
         (installed (self w) (_decorate_builtin_compress c)
            (_decorate_builtin_decompress dc) r)) /\
    forall (img : ndarray) (kwargs : dict),
      _decorate_builtin_compress c img kwargs = c img kwargs in
  (lower algo = "bz2" -> done (bz2_compress L) (bz2_decompress L)) /\
  (lower algo = "gzip" -> done (gzip_compress L) (gzip_decompress L)) /\
  d' !! "compresslevel" = Some v /\
  d' !! "level" = None /\
  forall k : string, k <> "level" -> k <> "compresslevel" -> d' !! k = d !! k.
Proof.
  intros Hr Hl d' fin. subst fin d'. cbv beta.
  split; [|split; [|split; [|split]]].
  - intros Ha. split; [by apply select_algo_bz2_run|].
    apply builtin_compress_call.
  - intros Ha. split; [by apply select_algo_gzip_run|].
    apply builtin_compress_call.
  - rewrite lookup_delete_ne by done. apply lookup_insert_eq.
  - apply lookup_delete_eq.
  - intros k H1 H2. rewrite lookup_delete_ne by done.
    by rewrite lookup_insert_ne.
Qed.

Lemma bz2_gzip_level_becomes_compresslevel_witness :
  select_algo stored_libs "BZ2" 1
    (ex_world (<["level" := VStr "high"]> {[ "other" := VNone ]})) =
    (Ok tt,
     mk_World
       (<[1%positive :=
            delete "level"
              (<["compresslevel" := VStr "high"]>
                 (<["level" := VStr "high"]> {[ "other" := VNone ]}))]>
          (heap (ex_world (<["level" := VStr "high"]>
                             {[ "other" := VNone ]}))))
       ∅
       (installed ex_self (_decorate_builtin_compress (bz2_compress stored_libs))
          (_decorate_builtin_decompress (bz2_decompress stored_libs)) 1)).
Proof.
  refine (proj1 (proj1 (bz2_gzip_level_becomes_compresslevel stored_libs "BZ2"
                  1%positive
                  (ex_world (<["level" := VStr "high"]> {[ "other" := VNone ]}))
                  (<["level" := VStr "high"]> {[ "other" := VNone ]})
                  (VStr "high") _ _) _)); reflexivity.
Defined.

Lemma cv_compress_run (L : Libs)
    (func : pyval -> ndarray -> pyval -> result (bool * ndarray))
    (img : ndarray) (kwargs : dict) (ext params : pyval) :
  kwargs !! "ext" = Some ext ->
  kwargs !! "params" = Some params ->
  _decorate_cv_compress L func img kwargs =
    match func ext (scale255_astype_uint8 L img) params with
    | Ok (_, buf) => Ok (data buf)
    | Raise e => Raise e
    end.
Proof.
  intros He Hp. unfold _decorate_cv_compress, kw_getitem. cbv zeta.
  rewrite He, Hp. unfold mbind, result_bind, mret, result_ret.
  destruct (func ext (scale255_astype_uint8 L img) params) as [[flag buf]|e];
    reflexivity.
Qed.

(** X5.  Selecting png turns a dictionary with [level] into one with
    [ext = ".png"] and [params = (IMWRITE_PNG_COMPRESSION, level)],
    without [level]; the resolved encode function then calls
    [cv2.imencode(".png", (img * 255).astype(uint8), params)] and
    returns the bytes of its buffer, whatever the success flag that
    [imencode] returns with it. *)
Theorem png_selection_and_encoding (L : Libs) (algo : string) (r : loc)
    (w : World) (d : dict) (level : pyval) :
  lower algo = "png" ->
  heap w !! r = Some d ->
  d !! "level" = Some level ->
  let params := VTuple [VInt cv2.IMWRITE_PNG_COMPRESSION; level] in
  let d' := <["params" := params]> (delete "level" (<["ext" := VStr ".png"]> d)) in
  select_algo L algo r w =
    (Ok tt,
     mk_World (<[r := d']> (heap w)) (fs w)
       (installed (self w) (_decorate_cv_compress L (cv2_imencode L))
          (_decorate_cv_decompress (cv2_imdecode L)) r)) /\
  d' !! "level" = None /\
  forall img : ndarray,
    _decorate_cv_compress L (cv2_imencode L) img d' =
      match cv2_imencode L (VStr ".png") (scale255_astype_uint8 L img) params
      with
      | Ok (_, buf) => Ok (data buf)
      | Raise e => Raise e
      end.
Proof.
  intros Ha Hr Hl params d'.
  split; [|split].
  - rewrite (select_algo_other_run L algo r w d Hr).
    + cbv zeta. by rewrite Hl.
    + rewrite Ha. unfold compared_names. intros H.
      repeat (apply elem_of_cons in H as [H|H]; [discriminate H|]).
      by apply elem_of_nil in H.
  - subst d'. rewrite lookup_insert_ne by done. apply lookup_delete_eq.
  - intros img. apply cv_compress_run.
    + subst d'. rewrite lookup_insert_ne by done.
      rewrite lookup_delete_ne by done. apply lookup_insert_eq.
    + apply lookup_insert_eq.
Qed.

Lemma png_selection_and_encoding_witness :
  let d : dict := {[ "level" := VInt 6 ]} in
  let params := VTuple [VInt cv2.IMWRITE_PNG_COMPRESSION; VInt 6] in
  let d' := <["params" := params]> (delete "level" (<["ext" := VStr ".png"]> d)) in
  select_algo (demo_libs []) "PNG" 1 (ex_world d) =
    (Ok tt,
     mk_World (<[1%positive := d']> (heap (ex_world d))) (fs (ex_world d))
       (installed (self (ex_world d))
          (_decorate_cv_compress (demo_libs []) (cv2_imencode (demo_libs [])))
          (_decorate_cv_decompress (cv2_imdecode (demo_libs []))) 1)) /\
  d' !! "level" = None /\
  forall img : ndarray,
    _decorate_cv_compress (demo_libs []) (cv2_imencode (demo_libs [])) img d' =
      match cv2_imencode (demo_libs []) (VStr ".png")
              (scale255_astype_uint8 (demo_libs []) img) params
      with
      | Ok (_, buf) => Ok (data buf)
      | Raise e => Raise e
      end.
Proof.
  intros d params d'.
  apply (png_selection_and_encoding (demo_libs []) "PNG" 1%positive
           (ex_world d) d (VInt 6)); reflexivity.
Defined.

Lemma algo_cases (algo : string) :
  lower algo = "bz2" \/ lower algo = "gzip" \/ lower algo = "lzma" \/
  lower algo = "zlib" \/ (lower algo = "jpeg" \/ lower algo = "jpg") \/
  lower algo ∉ compared_names.
Proof.
  destruct (decide (lower algo = "bz2")); [tauto|].
  destruct (decide (lower algo = "gzip")); [tauto|].
  destruct (decide (lower algo = "lzma")); [tauto|].
  destruct (decide (lower algo = "zlib")); [tauto|].
  destruct (decide (lower algo = "jpeg")); [tauto|].
  destruct (decide (lower algo = "jpg")); [tauto|].
  do 5 right. unfold compared_names. rewrite !elem_of_cons, elem_of_nil.
  tauto.
Qed.

Lemma select_algo_rename_missing (L : Libs) (algo : string) (r : loc)
    (w : World) (d : dict) :
  lower algo = "bz2" \/ lower algo = "gzip" \/ lower algo = "lzma" ->
  heap w !! r = Some d ->
  d !! "level" = None ->
  select_algo L algo r w = (Raise (KeyError "level"), w).
Proof.
  intros Ha Hr Hl. unfold select_algo. cbv zeta.
  destruct Ha as [Ha|[Ha|Ha]]; rewrite Ha; eqb_eval; cbv iota;
    repeat mstep; rewrite Hl; reflexivity.
Qed.

Lemma select_algo_without_level_aux (L : Libs) (algo : string) (r : loc)
    (w : World) (d : dict) :
  heap w !! r = Some d ->
  d !! "level" = None ->
  (lower algo = "bz2" \/ lower algo = "gzip" \/ lower algo = "lzma" ->
   select_algo L algo r w = (Raise (KeyError "level"), w)) /\
  (lower algo = "jpeg" \/ lower algo = "jpg" ->
   select_algo L algo r w =
     (Raise (KeyError "level"),
      with_heap w (<[r := <["ext" := VStr ".jpg"]> d]> (heap w)))) /\
  (lower algo ∉ compared_names ->
   select_algo L algo r w =
     (Raise (KeyError "level"),
      with_heap w (<[r := <["ext" := VStr ".png"]> d]> (heap w)))).
Proof.
  intros Hr Hl. split; [|split].
  - intros Ha. by eapply select_algo_rename_missing.
  - intros Ha. rewrite (select_algo_jpeg_run L algo r w d Hr Ha).
    cbv zeta. by rewrite Hl.
  - intros Ha. rewrite (select_algo_other_run L algo r w d Hr Ha).
    cbv zeta. by rewrite Hl.
Qed.

(** X6.  On a dictionary without [level], every selection but that of
    zlib raises [KeyError('level')].  For bz2, gzip and lzma nothing
    has been touched by then; for jpeg, jpg, png and the names that
    run the png branch the dictionary has already received [ext].
    zlib, which never reads [level], is selected. *)
Theorem select_algo_without_level (L : Libs) (algo : string) (r : loc)
    (w : World) (d : dict) :
  heap w !! r = Some d ->
  d !! "level" = None ->
  (lower algo = "bz2" \/ lower algo = "gzip" \/ lower algo = "lzma" ->
   select_algo L algo r w = (Raise (KeyError "level"), w)) /\
  (lower algo = "jpeg" \/ lower algo = "jpg" ->
   select_algo L algo r w =
     (Raise (KeyError "level"),
      with_heap w (<[r := <["ext" := VStr ".jpg"]> d]> (heap w)))) /\
  (lower algo ∉ compared_names ->
   select_algo L algo r w =
     (Raise (KeyError "level"),
      with_heap w (<[r := <["ext" := VStr ".png"]> d]> (heap w)))) /\
  (lower algo = "zlib" -> fst (select_algo L algo r w) = Ok tt).
Proof.
  intros Hr Hl.
  destruct (select_algo_without_level_aux L algo r w d Hr Hl)
    as (H1 & H2 & H3).
  repeat split; try assumption.
  intros Ha. by rewrite select_algo_zlib_run.
Qed.

Lemma select_algo_without_level_witness :
  select_algo stored_libs "gzip" 1 (ex_world {[ "compresslevel" := VInt 9 ]})
    = (Raise (KeyError "level"), ex_world {[ "compresslevel" := VInt 9 ]}).
Proof.
  refine (proj1 (select_algo_without_level stored_libs "gzip" 1%positive
                   (ex_world {[ "compresslevel" := VInt 9 ]})
                   {[ "compresslevel" := VInt 9 ]} _ _) _).
  - reflexivity.
  - reflexivity.
  - right. left. reflexivity.
Defined.

Lemma missing_level_raises (L : Libs) (algo : string) (r : loc) (w : World)
    (d : dict) :
  heap w !! r = Some d ->
  d !! "level" = None ->
  lower algo <> "zlib" ->
  fst (select_algo L algo r w) = Raise (KeyError "level").
Proof.
  intros Hr Hl Hz.
  destruct (select_algo_without_level_aux L algo r w d Hr Hl)
    as (H1 & H2 & H3).
  destruct (algo_cases algo) as [Ha|[Ha|[Ha|[Ha|[Ha|Ha]]]]];
    try (by rewrite H1; auto); try done.
  - by rewrite H2.
  - by rewrite H3.
Qed.

(** What a selection that pops [level] leaves in the dictionary. *)
Lemma select_algo_pops_level (L : Libs) (algo : string) (r : loc) (w : World)
    (d : dict) (v : pyval) :
  heap w !! r = Some d ->
  d !! "level" = Some v ->
  (lower algo = "bz2" \/ lower algo = "gzip" \/ lower algo = "lzma") \/
  lower algo ∉ compared_names ->
  exists d' : dict,
    fst (select_algo L algo r w) = Ok tt /\
    heap (snd (select_algo L algo r w)) !! r = Some d' /\
    d' !! "level" = None.
Proof.
  intros Hr Hl [[Ha|[Ha|Ha]]|Ha].
  - rewrite (select_algo_bz2_run L algo r w d Hr v Ha Hl).
    eexists. cbn [fst snd heap]. rewrite lookup_insert_eq.
    repeat split. apply lookup_delete_eq.
  - rewrite (select_algo_gzip_run L algo r w d Hr v Ha Hl).
    eexists. cbn [fst snd heap]. rewrite lookup_insert_eq.
    repeat split. apply lookup_delete_eq.
  - rewrite (select_algo_lzma_run L algo r w d Hr v Ha Hl).
    eexists. cbn [fst snd heap]. rewrite lookup_insert_eq.
    repeat split. apply lookup_delete_eq.
  - rewrite (select_algo_other_run L algo r w d Hr Ha). cbv zeta. rewrite Hl.
    eexists. cbn [fst snd heap]. rewrite lookup_insert_eq.
    repeat split. rewrite lookup_insert_ne by done. apply lookup_delete_eq.
Qed.

(** X7.  A settings dictionary serves one selection of bz2, gzip, lzma
    or png: the selection succeeds and removes [level], so selecting
    again on the same dictionary, with any name but zlib, raises
    [KeyError('level')]. *)
Theorem reselecting_on_the_same_dictionary_fails (L : Libs)
    (algo algo' : string) (r : loc) (w : World) (d : dict) (v : pyval) :
  heap w !! r = Some d ->
  d !! "level" = Some v ->
  (lower algo = "bz2" \/ lower algo = "gzip" \/ lower algo = "lzma") \/
  lower algo ∉ compared_names ->
  lower algo' <> "zlib" ->
  fst (select_algo L algo r w) = Ok tt /\
  fst (select_algo L algo' r (snd (select_algo L algo r w)))
    = Raise (KeyError "level").
Proof.
  intros Hr Hl Ha Hz.
  destruct (select_algo_pops_level L algo r w d v Hr Hl Ha)
    as (d' & Hok & Hd' & Hnone).
  split; [exact Hok|]. by eapply missing_level_raises.
Qed.

Lemma reselecting_on_the_same_dictionary_fails_witness :
  fst (select_algo stored_libs "lzma" 1 (ex_world {[ "level" := VInt 9 ]}))
    = Ok tt /\
  fst (select_algo stored_libs "bz2" 1
         (snd (select_algo stored_libs "lzma" 1
                 (ex_world {[ "level" := VInt 9 ]}))))
    = Raise (KeyError "level").
Proof.
  apply (reselecting_on_the_same_dictionary_fails stored_libs "lzma" "bz2"
           1%positive (ex_world {[ "level" := VInt 9 ]})
           {[ "level" := VInt 9 ]} (VInt 9)).
  - reflexivity.
  - reflexivity.
  - left. right. right. reflexivity.
  - discriminate.
Defined.

Lemma jpeg_params_resolved (d : dict) (q e p : pyval) :
  jpeg_params (<["params" := p]> (<["ext" := e]> d)) q = jpeg_params d q.
Proof.
  unfold jpeg_params.
  do 4 (rewrite !check_option_insert_ne by done;
        match goal with
        | |- context [check_option d ?k ?i ?f ?m ?p0 ≫= _] =>
            destruct (check_option d k i f m p0);
            cbn [mbind result_bind]; [|reflexivity]
        end).
  by rewrite !check_option_insert_ne by done.
Qed.

Lemma resolved_again (d : dict) (e p : pyval) :
  <["params" := p]> (<["ext" := e]> (<["params" := p]> (<["ext" := e]> d)))
  = <["params" := p]> (<["ext" := e]> d).
Proof.
  apply map_eq. intros k.
  destruct (decide (k = "params")) as [->|Hp]; [by simplify_map_eq|].
  destruct (decide (k = "ext")) as [->|He]; by simplify_map_eq.
Qed.

(** X8.  Selecting jpeg, jpg or zlib is repeatable: these branches do
    not remove [level], so a second selection of the same name on the
    dictionary the first one resolved succeeds and changes nothing. *)
Theorem reselecting_jpeg_or_zlib_changes_nothing (L : Libs) (algo : string)
    (r : loc) (w w' : World) (d : dict) :
  lower algo = "jpeg" \/ lower algo = "jpg" \/ lower algo = "zlib" ->
  heap w !! r = Some d ->
  select_algo L algo r w = (Ok tt, w') ->
  select_algo L algo r w' = (Ok tt, w').
Proof.
  intros Ha Hr H.
  assert (Hj : (lower algo = "jpeg" \/ lower algo = "jpg") \/
               lower algo = "zlib") by tauto.
  destruct Hj as [Hj|Hz].
  - rewrite (select_algo_jpeg_run L algo r w d Hr Hj) in H. cbv zeta in H.
    destruct (d !! "level") as [level|] eqn:Hl; [|discriminate].
    destruct (py_mul_int level 10) as [q|e] eqn:Hq; [|discriminate].
    destruct (jpeg_params d q) as [ps|e] eqn:Hp; [|discriminate].
    injection H as <-.
    rewrite (select_algo_jpeg_run L algo r _
               (<["params" := VTuple ps]> (<["ext" := VStr ".jpg"]> d)))
      by (try exact Hj; cbn [heap]; apply lookup_insert_eq).
    cbv zeta. rewrite !lookup_insert_ne by done.
    rewrite Hl, Hq, jpeg_params_resolved, Hp.
    cbn [heap fs self with_heap]. rewrite insert_insert_eq, resolved_again.
    reflexivity.
  - rewrite (select_algo_zlib_run L algo r w Hz) in H. injection H as <-.
    by rewrite (select_algo_zlib_run L algo r _ Hz).
Qed.

Lemma reselecting_jpeg_or_zlib_changes_nothing_witness :
  select_algo stored_libs "jpeg" 1
    (snd (select_algo stored_libs "jpeg" 1
            (ex_world (<["level" := VInt 8]> {[ "optimize" := VBool true ]}))))
  = (Ok tt,
     snd (select_algo stored_libs "jpeg" 1
            (ex_world (<["level" := VInt 8]> {[ "optimize" := VBool true ]})))).
Proof.
  apply (reselecting_jpeg_or_zlib_changes_nothing stored_libs "jpeg"
           1%positive
           (ex_world (<["level" := VInt 8]> {[ "optimize" := VBool true ]}))
           _ (<["level" := VInt 8]> {[ "optimize" := VBool true ]})).
  - left. reflexivity.
  - reflexivity.
  - vm_compute. reflexivity.
Defined.

Lemma bind_ok_inv {A B : Type} (m : M A) (k : A -> M B) (w w' : World)
    (b : B) :
  (m ≫= k) w = (Ok b, w') ->
  exists a w1, m w = (Ok a, w1) /\ k a w1 = (Ok b, w').
Proof.
  rewrite bind_run. destruct (m w) as [[a|e] w1]; [eauto | discriminate].
Qed.

(** Prove [keeps r m] for a body made of the dictionary operations. *)
Ltac keeps_body :=
  repeat first
    [ apply keeps_ret | apply keeps_raise | apply keeps_lift
    | apply keeps_getitem | apply keeps_setitem | apply keeps_pop
    | apply keeps_contains
    | apply keeps_bind; [|intros ?]
    | match goal with
      | |- keeps _ (if ?b then _ else _) => destruct b
      end ].

(** X9.  A selection that succeeds assigns [_comp_met], [_decomp_met]
    and [_settings], the last one being the very dictionary passed in
    (a reference, not a copy), and nothing else: the loaded images and
    frame identifiers, the directories, the files and every other
    dictionary are as before. *)
Theorem select_algo_success_frame (L : Libs) (algo : string) (r : loc)
    (w w' : World) :
  select_algo L algo r w = (Ok tt, w') ->
  (exists (comp : comp_met_t) (decomp : decomp_met_t),
     self w' = installed (self w) comp decomp r) /\
  _settings (self w') = Some r /\
  imgs (self w') = imgs (self w) /\
  img_ids (self w') = img_ids (self w) /\
  image_dir (self w') = image_dir (self w) /\
  fs w' = fs w /\
  forall l : loc, l <> r -> heap w' !! l = heap w !! l.
Proof.
  unfold select_algo. cbv zeta. intros H.
  apply bind_ok_inv in H as ([comp decomp] & w1 & Hbody & Hinst).
  match type of Hbody with ?m w = _ => assert (Hk : keeps r m) end.
  { keeps_body. }
  specialize (Hk w). rewrite Hbody in Hk. cbn [snd] in Hk.
  destruct Hk as (Hs & Hf & Hh).
  cbv [get_self put_self mbind M_bind] in Hinst. injection Hinst as <-.
  cbn [self fs heap]. rewrite Hs.
  split; [by exists comp, decomp|]. by repeat split.
Qed.

Lemma select_algo_success_frame_witness :
  let w := mk_World {[ 1%positive := {[ "level" := VInt 9 ]};
                       2%positive := {[ "level" := VInt 1 ]} ]}
             {[ "res/rendering/0001" := [x00] ]}
             (mk_Compressor ["res"] ["res"; "rendering"] ".exr" [tiny_image]
                (Some ["0001"]) None None (Some 2%positive)) in
  let w' := snd (select_algo stored_libs "bz2" 1 w) in
  (exists (comp : comp_met_t) (decomp : decomp_met_t),
     self w' = installed (self w) comp decomp 1) /\
  _settings (self w') = Some 1%positive /\
  imgs (self w') = imgs (self w) /\
  img_ids (self w') = img_ids (self w) /\
  image_dir (self w') = image_dir (self w) /\
  fs w' = fs w /\
  forall l : loc, l <> 1%positive -> heap w' !! l = heap w !! l.
Proof.
  intros w w'.
  apply (select_algo_success_frame stored_libs "bz2" 1%positive w w').
  vm_compute. reflexivity.
Defined.

Lemma check_option_raise (d : dict) (key : string)
    (isinstance : pyval -> bool) (flag : Z) (msg : string)
    (params : list pyval) (e : exn) :
  check_option d key isinstance flag msg params = Raise e ->
  e = CompressionError msg.
Proof.
  unfold check_option. destruct (d !! key) as [v|]; [|discriminate].
  destruct (isinstance v); [discriminate|]. by intros [= <-].
Qed.

Lemma jpeg_params_raise (d : dict) (q : pyval) (e : exn) :
  jpeg_params d q = Raise e ->
  exists msg : string,
    e = CompressionError msg /\
    msg ∈ ["JPEG progressive requires bool";
           "JPEG optimize requires bool input";
           "JPEG rst_interval requires int";
           "JPEG luma_quality requires int";
           "JPEG chroma_quality requires int"].
Proof.
  unfold jpeg_params. intros H.
  repeat match type of H with
  | (check_option ?d0 ?k ?i ?f ?m ?p ≫= _) = _ =>
      let E := fresh "E" in
      destruct (check_option d0 k i f m p) eqn:E;
      cbn [mbind result_bind] in H;
      [clear E
      |injection H as <-; apply check_option_raise in E as ->;
       eexists; split; [reflexivity | rewrite !elem_of_cons; tauto]]
  end.
  apply check_option_raise in H as ->.
  eexists; split; [reflexivity | rewrite !elem_of_cons; tauto].
Qed.

(** What [level * 10] does on each kind of value. *)
Lemma mul_10_raises (v : pyval) (e : exn) :
  py_mul_int v 10 = Raise e ->
  (exists msg, e = TypeError msg) /\
  (v = VNone \/ (exists items, v = VDict items) \/ (exists items, v = VSet items)).
Proof.
  destruct v; cbn [py_mul_int]; try discriminate.
  - intros [= <-]. eauto.
  - intros [= <-]. eauto 6.
  - intros [= <-]. eauto 6.
Qed.

(** X10.  The exceptions of [select_algo].  On a dictionary [d] it
    raises [KeyError('level')] when [d] has no [level]; and only for
    jpeg and jpg it can raise something else: the [TypeError] of
    [level * 10] when [level] is a value without a product with an int
    ([None], a dictionary, a set), or [CompressionError] with one of
    the five option messages.  Nothing else about [level], its type or
    its range, is checked by any branch: a float, a string or a list
    passes. *)
Theorem select_algo_exceptions (L : Libs) (algo : string) (r : loc)
    (w w' : World) (d : dict) (e : exn) :
  heap w !! r = Some d ->
  select_algo L algo r w = (Raise e, w') ->
  (e = KeyError "level" /\ d !! "level" = None /\ lower algo <> "zlib") \/
  ((lower algo = "jpeg" \/ lower algo = "jpg") /\
   ((exists (v : pyval) (msg : string),
       d !! "level" = Some v /\ py_mul_int v 10 = Raise e /\
       e = TypeError msg /\
       (v = VNone \/ (exists items, v = VDict items) \/
        (exists items, v = VSet items))) \/
    (exists msg,
       e = CompressionError msg /\
       msg ∈ ["JPEG progressive requires bool";
              "JPEG optimize requires bool input";
              "JPEG rst_interval requires int";
              "JPEG luma_quality requires int";
              "JPEG chroma_quality requires int"]))).
Proof.
  intros Hr H.
  destruct (d !! "level") as [v|] eqn:Hl.
  - destruct (algo_cases algo) as [Ha|[Ha|[Ha|[Ha|[Ha|Ha]]]]].
    + by rewrite (select_algo_bz2_run L algo r w d Hr v Ha Hl) in H.
    + by rewrite (select_algo_gzip_run L algo r w d Hr v Ha Hl) in H.
    + by rewrite (select_algo_lzma_run L algo r w d Hr v Ha Hl) in H.
    + by rewrite (select_algo_zlib_run L algo r w Ha) in H.
    + right. split; [exact Ha|].
      rewrite (select_algo_jpeg_run L algo r w d Hr Ha) in H.
      cbv zeta in H. rewrite Hl in H.
      destruct (py_mul_int v 10) as [q|e1] eqn:Hq.
      * right. destruct (jpeg_params d q) as [ps|e2] eqn:Hp; [discriminate|].
        injection H as <- _. by eapply jpeg_params_raise.
      * left. injection H as <- _.
        destruct (mul_10_raises v e1 Hq) as [[msg ->] Hv].
        exists v, msg. auto.
    + rewrite (select_algo_other_run L algo r w d Hr Ha) in H.
      cbv zeta in H. by rewrite Hl in H.
  - left.
    assert (Hz : lower algo <> "zlib").
    { intros Ha. by rewrite (select_algo_zlib_run L algo r w Ha) in H. }
    pose proof (missing_level_raises L algo r w d Hr Hl Hz) as Hk.
    rewrite H in Hk. cbn [fst] in Hk. by injection Hk as ->.
Qed.

Lemma select_algo_exceptions_witness :
  let d : dict := {[ "level" := VDict [("value", VInt 9)] ]} in
  let e := TypeError "unsupported operand type(s) for *: 'dict' and 'int'" in
  (e = KeyError "level" /\ d !! "level" = None /\ lower "jpg" <> "zlib") \/
  ((lower "jpg" = "jpeg" \/ lower "jpg" = "jpg") /\
   ((exists (v : pyval) (msg : string),
       d !! "level" = Some v /\ py_mul_int v 10 = Raise e /\
       e = TypeError msg /\
       (v = VNone \/ (exists items, v = VDict items) \/
        (exists items, v = VSet items))) \/
    (exists msg,
       e = CompressionError msg /\
       msg ∈ ["JPEG progressive requires bool";
              "JPEG optimize requires bool input";
              "JPEG rst_interval requires int";
              "JPEG luma_quality requires int";
              "JPEG chroma_quality requires int"]))).
Proof.
  intros d e.
  apply (select_algo_exceptions stored_libs "jpg" 1%positive
           (ex_world d)
           (with_heap (ex_world d)
              {[ 1%positive := <["ext" := VStr ".jpg"]> d ]})
           d).
  - reflexivity.
  - vm_compute. reflexivity.
Defined.

(** ** More on compressing and decompressing *)


(** X11.  What a call of [compress] that raises leaves behind.  The
    dictionaries and the attributes are as before the call, and so are
    the files when the failure comes from the attributes, from the
    encoder, from [img_ids[0]] or from [open]: the file is opened only
    after the encoder has returned and [img_ids[0]] has been read.
    The one failure that changes a file is that of the write itself:
    the destination, already opened and emptied, holds what the write
    got to. *)
Theorem compress_failure_leaves_state (L : Libs) (img : ndarray)
    (w w' : World) (e : exn) :
  compress L img w = (Raise e, w') ->
  w' = w \/
  exists (comp : comp_met_t) (r : loc) (kwargs : dict) (id : string)
         (rest : list string) (a partial : bytes),
    let dest := path_str (path_div (image_dir (self w)) id) in
    _comp_met (self w) = Some comp /\
    _settings (self w) = Some r /\
    heap w !! r = Some kwargs /\
    img_ids (self w) = Some (id :: rest) /\
    comp img kwargs = Ok a /\
    open_wb_error L (fs w) dest = None /\
    write_error L (fs w) dest a = Some (e, partial) /\
    w' = mk_World (heap w) (<[dest := partial]> (fs w)) (self w).
Proof.
  cbv [compress getattr first_img_id get_self deref lift file_write raise
       mbind M_bind mret M_ret].
  destruct (_comp_met (self w)) as [comp|]; [|intros [= _ <-]; by left].
  destruct (_settings (self w)) as [r|]; [|intros [= _ <-]; by left].
  destruct (heap w !! r) as [kwargs|] eqn:Hh; [|intros [= _ <-]; by left].
  destruct (comp img kwargs) as [a|e0] eqn:Ha; [|intros [= _ <-]; by left].
  destruct (img_ids (self w)) as [[|id rest]|];
    [intros [= _ <-]; by left | | intros [= _ <-]; by left].
  destruct (open_wb_error L (fs w) _) as [e1|] eqn:Ho;
    [intros [= _ <-]; by left|].
  destruct (write_error L (fs w) _ a) as [[e1 p]|] eqn:Hw; [|discriminate].
  intros [= <- <-]. right. by exists comp, r, kwargs, id, rest, a, p.
Qed.

Lemma compress_failure_leaves_state_witness :
  let L := demo_libs [] in
  let w := mk_World {[ 1%positive := {[ "preset" := VInt 9 ]} ]}
             {[ "res/rendering/0001" := [x01] ]}
             (mk_Compressor ["res"] ["res"; "rendering"] ".exr" []
                (Some ["0001"])
                (Some (_decorate_builtin_compress (lzma_compress L)))
                (Some (_decorate_builtin_decompress (lzma_decompress L)))
                (Some 1%positive)) in
  let img := mk_ndarray float32 [0%N] [] in
  let e := LibraryError "empty input" in
  compress L img w = (Raise e, w) /\
  (w = w \/
   exists (comp : comp_met_t) (r : loc) (kwargs : dict) (id : string)
          (rest : list string) (a partial : bytes),
     let dest := path_str (path_div (image_dir (self w)) id) in
     _comp_met (self w) = Some comp /\
     _settings (self w) = Some r /\
     heap w !! r = Some kwargs /\
     img_ids (self w) = Some (id :: rest) /\
     comp img kwargs = Ok a /\
     open_wb_error L (fs w) dest = None /\
     write_error L (fs w) dest a = Some (e, partial) /\
     w = mk_World (heap w) (<[dest := partial]> (fs w)) (self w)).
Proof.
  intros L w img e. split; [reflexivity|].
  apply (compress_failure_leaves_state L img w w e). reflexivity.
Defined.

(** X12.  Without loaded frame identifiers [compress] cannot name its
    file: on a configured [Compressor] it runs the encoder and then
    raises [AttributeError] when [load_images] was never called, and
    [IndexError] when the identifier list is empty. *)
Theorem compress_without_identifiers (L : Libs) (w : World)
    (comp : comp_met_t) (r : loc) (kwargs : dict) (img : ndarray)
    (a : bytes) :
  _comp_met (self w) = Some comp ->
  _settings (self w) = Some r ->
  heap w !! r = Some kwargs ->
  comp img kwargs = Ok a ->
  (img_ids (self w) = None ->
   compress L img w = (Raise (AttributeError "img_ids"), w)) /\
  (img_ids (self w) = Some [] ->
   compress L img w = (Raise (IndexError "list index out of range"), w)).
Proof.
  intros Hc Hs Hh Ha.
  split; intros Hi;
    cbv [compress getattr first_img_id get_self deref lift file_write raise
         mbind M_bind mret M_ret];
    rewrite Hc, Hs; cbv beta iota; rewrite Hh; cbv beta iota;
    rewrite Ha; cbv beta iota; by rewrite Hi.
Qed.

Lemma compress_without_identifiers_witness :
  let w := snd (__init__ stored_libs ["res"] None None (ex_world ∅)) in
  compress stored_libs tiny_image w = (Raise (AttributeError "img_ids"), w).
Proof.
  intros w.
  refine (proj1 (compress_without_identifiers stored_libs w
                   (_decorate_builtin_compress (lzma_compress stored_libs))
                   2%positive {[ "preset" := VInt 9 ]} tiny_image
                   (data tiny_image) _ _ _ _) _); reflexivity.
Defined.


Lemma decompress_none_run (L : Libs) (w : World) (id : string)
    (rest : list string) :
  img_ids (self w) = Some (id :: rest) ->
  decompress L None w =
    match fs w !! path_str (path_div (image_dir (self w)) id) with
    | Some a => decompress L (Some a) w
    | None =>
        (Raise (open_rb_error L (fs w)
                  (path_str (path_div (image_dir (self w)) id))), w)
    end.
Proof.
  intros Hi.
  cbv [decompress getattr first_img_id get_self file_read lift raise
       mbind M_bind mret M_ret].
  rewrite Hi. cbv beta iota.
  by destruct (fs w !! path_str (path_div (image_dir (self w)) id)).
Qed.



(** X14.  [decompress(None)] before anything was written: with frame
    identifiers loaded and no file to read at [image_dir / img_ids[0]],
    it raises what [open] raises for that path ([FileNotFoundError]
    when nothing is there, [IsADirectoryError] when the identifier is
    empty and the path is [image_dir] itself), before it looks at the
    decode function; and no call of [decompress] changes the files,
    the dictionaries or the attributes. *)
Theorem decompress_without_file (L : Libs) (w : World) (id : string)
    (rest : list string) :
  img_ids (self w) = Some (id :: rest) ->
  fs w !! path_str (path_div (image_dir (self w)) id) = None ->
  decompress L None w =
    (Raise (open_rb_error L (fs w)
              (path_str (path_div (image_dir (self w)) id))), w) /\
  forall (img : option bytes) (w0 : World), snd (decompress L img w0) = w0.
Proof.
  intros Hi Hf. split.
  - by rewrite (decompress_none_run L w id rest Hi), Hf.
  - intros img w0.
    cbv [decompress getattr first_img_id get_self file_read lift raise
         mbind M_bind mret M_ret].
    destruct img as [b|].
    + by destruct (_decomp_met (self w0)).
    + destruct (img_ids (self w0)) as [[|i l]|]; try reflexivity.
      destruct (fs w0 !! path_str (path_div (image_dir (self w0)) i));
        [|reflexivity].
      by destruct (_decomp_met (self w0)).
Qed.

Lemma decompress_without_file_witness :
  let w := mk_World ∅ {[ "res/rendering/0001" := [x01] ]}
             (mk_Compressor ["res"] ["res"; "rendering"] ".exr" []
                (Some [""; "0001"]) None None None) in
  decompress (demo_libs []) None w =
    (Raise (IsADirectoryError "res/rendering"), w) /\
  forall (img : option bytes) (w0 : World),
    snd (decompress (demo_libs []) img w0) = w0.
Proof.
  intros w.
  apply (decompress_without_file (demo_libs []) w "" ["0001"]); reflexivity.
Defined.




(** ** More on loading *)

Lemma load_images_world (L : Libs) (ids : list string) (w : World) :
  exists new : list ndarray,
    snd (load_images L (Some ids) w) =
      mk_World (heap w) (fs w)
        (set_imgs (set_img_ids (self w) ids) (imgs (self w) ++ new)%list) /\
    (fst (load_images L (Some ids) w) = Ok tt ->
     List.length new = List.length ids).
Proof.
  destruct (load_images_loop L (Some ids) w) as (l & Hl & ->).
  rewrite (Hl ids eq_refl).
  destruct (load_loop_run L ids
              (mk_World (heap w) (fs w) (set_img_ids (self w) ids)))
    as (new & Hw & Hok).
  exists new. split; [exact Hw|].
  intros H. symmetry. eapply Forall2_length. by apply Hok.
Qed.

(** X16.  [load_images] replaces the identifier list and extends the
    image list.  After two calls that returned, [img_ids] holds the
    identifiers of the second call only, while [imgs] holds the old
    images followed by one image per identifier of both calls: the
    two lists no longer correspond position by position. *)
Theorem load_images_replaces_img_ids (L : Libs) (ids1 ids2 : list string)
    (w w1 w2 : World) :
  load_images L (Some ids1) w = (Ok tt, w1) ->
  load_images L (Some ids2) w1 = (Ok tt, w2) ->
  img_ids (self w1) = Some ids1 /\
  img_ids (self w2) = Some ids2 /\
  List.length (imgs (self w2)) =
    (List.length (imgs (self w)) + List.length ids1 + List.length ids2)%nat.
Proof.
  intros H1 H2.
  destruct (load_images_world L ids1 w) as (new1 & Hw1 & Hn1).
  destruct (load_images_world L ids2 w1) as (new2 & Hw2 & Hn2).
  rewrite H1 in Hw1, Hn1. rewrite H2 in Hw2, Hn2. cbn [fst snd] in *.
  rewrite Hw2. cbn [self set_imgs set_img_ids img_ids imgs].
  rewrite Hw1. cbn [self set_imgs set_img_ids img_ids imgs].
  repeat split. rewrite !length_app, Hn1, Hn2 by reflexivity. lia.
Qed.

Lemma load_images_replaces_img_ids_witness :
  let w1 := snd (load_images stored_libs (Some ["0001"; "0002"]) (ex_world ∅)) in
  let w2 := snd (load_images stored_libs (Some ["0003"]) w1) in
  img_ids (self w1) = Some ["0001"; "0002"] /\
  img_ids (self w2) = Some ["0003"] /\
  List.length (imgs (self w2)) =
    (List.length (imgs (self (ex_world ∅))) + List.length ["0001"; "0002"]
     + List.length ["0003"])%nat.
Proof.
  intros w1 w2.
  apply (load_images_replaces_img_ids stored_libs ["0001"; "0002"] ["0003"]
           (ex_world ∅) w1 w2); reflexivity.
Defined.

Lemma load_loop_failure (L : Libs) (pre : list string) (new : list ndarray)
    (bad : string) (post : list string) (e : exn) :
  forall w : World,
    Forall2 (fun id img =>
               read_openexr_image L (fs w) (img_path (self w) id) = Ok img)
            pre new ->
    read_openexr_image L (fs w) (img_path (self w) bad) = Raise e ->
    for_each (pre ++ bad :: post)%list (load_one L) w =
      (Raise e,
       mk_World (heap w) (fs w)
         (set_imgs (self w) (imgs (self w) ++ new)%list)).
Proof.
  revert new. induction pre as [|id pre IH]; intros new w Hpre Hbad.
  - apply Forall2_nil_inv_l in Hpre as ->.
    cbn [app for_each]. rewrite bind_run, load_one_run, Hbad.
    rewrite app_nil_r. by destruct w as [h f []].
  - apply Forall2_cons_inv_l in Hpre as (img & new' & Hid & Hpre & ->).
    cbn [app for_each]. rewrite bind_run, load_one_run, Hid.
    rewrite (IH new') by (cbn [fs self set_imgs image_dir]; assumption).
    cbn [heap fs self set_imgs imgs res_dir image_dir image_extension
         img_ids _comp_met _decomp_met _settings].
    by rewrite <- app_assoc.
Qed.

(** X17.  A read that fails in the middle of [load_images(ids)] leaves
    the call half done: the exception of the reader comes out,
    [img_ids] is already the new list, and the images read before the
    failing one have been appended. *)
Theorem load_images_partial_failure (L : Libs) (pre : list string)
    (new : list ndarray) (bad : string) (post : list string) (e : exn)
    (w : World) :
  Forall2 (fun id img =>
             read_openexr_image L (fs w) (img_path (self w) id) = Ok img)
          pre new ->
  read_openexr_image L (fs w) (img_path (self w) bad) = Raise e ->
  load_images L (Some (pre ++ bad :: post)%list) w =
    (Raise e,
     mk_World (heap w) (fs w)
       (set_imgs (set_img_ids (self w) (pre ++ bad :: post)%list)
          (imgs (self w) ++ new)%list)).
Proof.
  intros Hpre Hbad.
  destruct (load_images_loop L (Some (pre ++ bad :: post)%list) w)
    as (l & Hl & ->).
  rewrite (Hl _ eq_refl).
  by rewrite (load_loop_failure L pre new bad post e).
Qed.

Lemma load_images_partial_failure_witness :
  let w := mk_World ∅ {[ "res/rendering/Comp_0001.exr" := [x00; x00; x80; x3f] ]}
             ex_self in
  load_images (demo_libs []) (Some ["0001"; "0002"; "0003"]) w =
    (Raise (FileNotFoundError "res/rendering/Comp_0002.exr"),
     mk_World (heap w) (fs w)
       (set_imgs (set_img_ids (self w) ["0001"; "0002"; "0003"])
          (imgs (self w) ++ [tiny_image])%list)).
Proof.
  intros w.
  apply (load_images_partial_failure (demo_libs []) ["0001"] [tiny_image]
           "0002" ["0003"]
           (FileNotFoundError "res/rendering/Comp_0002.exr") w).
  - repeat constructor.
  - reflexivity.
Defined.

(** ** More on series *)

Lemma compress_raise_run (L : Libs) (w : World) (comp : comp_met_t)
    (r : loc) (kwargs : dict) (img : ndarray) (e : exn) :
  _comp_met (self w) = Some comp ->
  _settings (self w) = Some r ->
  heap w !! r = Some kwargs ->
  comp img kwargs = Raise e ->
  compress L img w = (Raise e, w).
Proof.
  intros Hc Hs Hh Ha.
  cbv [compress getattr first_img_id get_self deref lift file_write raise
       mbind M_bind mret M_ret].
  rewrite Hc, Hs. cbv beta iota. rewrite Hh. cbv beta iota. by rewrite Ha.
Qed.

(** The files after a run of writes of [arts] to [dest]. *)
Lemma last_write (files : FS) (dest : string) (a : bytes) (arts : list bytes) :
  match last (a :: arts) with
  | Some b => <[dest := b]> files
  | None => files
  end =
  match last arts with
  | Some b => <[dest := b]> (<[dest := a]> files)
  | None => <[dest := a]> files
  end.
Proof.
  destruct arts as [|a' arts']; [reflexivity|].
  change (last (a :: a' :: arts')) with (last (a' :: arts')).
  destruct (last (a' :: arts')) as [b|] eqn:El.
  - by rewrite insert_insert_eq.
  - by apply last_None in El.
Qed.

Lemma compress_seq_failure (L : Libs) (comp : comp_met_t) (r : loc)
    (kwargs : dict) (id : string) (rest : list string) (pre : list ndarray)
    (arts : list bytes) (bad : ndarray) (post : list ndarray) (e : exn) :
  Forall2 (fun img a => comp img kwargs = Ok a) pre arts ->
  forall w w2 : World,
    _comp_met (self w) = Some comp ->
    _settings (self w) = Some r ->
    heap w !! r = Some kwargs ->
    img_ids (self w) = Some (id :: rest) ->
    writes_ok L (fs w) (path_str (path_div (image_dir (self w)) id)) arts ->
    compress L bad
      (mk_World (heap w)
         (match last arts with
          | Some a => <[path_str (path_div (image_dir (self w)) id) := a]> (fs w)
          | None => fs w
          end)
         (self w)) = (Raise e, w2) ->
    for_each (pre ++ bad :: post)%list (fun img => compress L img;; mret tt) w
      = (Raise e, w2).
Proof.
  intros Hpre.
  induction Hpre as [|img a pre arts Ha Hrest IH];
    intros w w2 Hc Hs Hh Hi Hw Hbad.
  - cbn [app for_each last] in *. rewrite !bind_run.
    destruct w as [h f c]. cbn [heap fs self] in Hbad. by rewrite Hbad.
  - cbn [app for_each]. rewrite !bind_run. destruct Hw as [Hw1 Hw2].
    rewrite (compress_run L w comp r kwargs id rest img a Hc Hs Hh Hi Ha Hw1).
    cbv beta iota. unfold mret at 1, M_ret at 1. cbv beta iota.
    apply IH; cbn [heap fs self]; try assumption.
    by rewrite <- last_write.
Qed.

(** X18.  [compress_series] compresses the loaded images in order and
    stops at the first one whose [compress] raises, be it the encoder
    that refuses the image or the file that does not open or take the
    write: the exception comes out with the state that call left, and
    the images after it are not touched.  When it is the encoder that
    refuses, the one file holds the artifact of the last image before
    it (or is as it was when the first image fails).  With no image
    loaded it returns at once, even on a [Compressor] without
    identifiers. *)
Theorem compress_series_stops_at_first_failure (L : Libs) (w w2 : World)
    (comp : comp_met_t) (r : loc) (kwargs : dict) (id : string)
    (rest : list string) (pre : list ndarray) (arts : list bytes)
    (bad : ndarray) (post : list ndarray) (e : exn) :
  _comp_met (self w) = Some comp ->
  _settings (self w) = Some r ->
  heap w !! r = Some kwargs ->
  img_ids (self w) = Some (id :: rest) ->
  imgs (self w) = (pre ++ bad :: post)%list ->
  Forall2 (fun img a => comp img kwargs = Ok a) pre arts ->
  let dest := path_str (path_div (image_dir (self w)) id) in
  let w1 := mk_World (heap w)
              (match last arts with
               | Some a => <[dest := a]> (fs w)
               | None => fs w
               end)
              (self w) in
  writes_ok L (fs w) dest arts ->
  compress L bad w1 = (Raise e, w2) ->
  compress_series L w = (Raise e, w2) /\
  (forall e' : exn, comp bad kwargs = Raise e' -> e = e' /\ w2 = w1) /\
  forall w0 : World, imgs (self w0) = [] -> compress_series L w0 = (Ok tt, w0).
Proof.
  intros Hc Hs Hh Hi Himgs Hpre dest w1 Hw Hbad. split; [|split].
  - unfold compress_series. rewrite bind_run. unfold get_self at 1.
    cbv beta iota. rewrite Himgs.
    by apply (compress_seq_failure L comp r kwargs id rest pre arts bad post e
                Hpre w w2 Hc Hs Hh Hi Hw).
  - intros e' He'.
    rewrite (compress_raise_run L w1 comp r kwargs bad e' Hc Hs Hh He') in Hbad.
    by injection Hbad as <- <-.
  - intros w0 H0. unfold compress_series. rewrite bind_run.
    unfold get_self at 1. cbv beta iota. by rewrite H0.
Qed.

Lemma compress_series_stops_at_first_failure_witness :
  let L := demo_libs [] in
  let empty := mk_ndarray float32 [0%N] [] in
  let w := mk_World {[ 1%positive := {[ "preset" := VInt 9 ]} ]} ∅
             (mk_Compressor ["res"] ["res"; "rendering"] ".exr"
                [tiny_image; empty; tiny_image]
                (Some ["0001"; "0002"; "0003"])
                (Some (_decorate_builtin_compress (lzma_compress L)))
                (Some (_decorate_builtin_decompress (lzma_decompress L)))
                (Some 1%positive)) in
  let w1 := mk_World (heap w)
              (<["res/rendering/0001" := data tiny_image]> (fs w)) (self w) in
  compress_series L w = (Raise (LibraryError "empty input"), w1) /\
  (forall e' : exn,
     _decorate_builtin_compress (lzma_compress L) empty
       {[ "preset" := VInt 9 ]} = Raise e' ->
     LibraryError "empty input" = e' /\ w1 = w1) /\
  forall w0 : World, imgs (self w0) = [] -> compress_series L w0 = (Ok tt, w0).
Proof.
  intros L empty w w1.
  apply (compress_series_stops_at_first_failure L w w1
           (_decorate_builtin_compress (lzma_compress L))
           1%positive {[ "preset" := VInt 9 ]} "0001" ["0002"; "0003"]
           [tiny_image] [data tiny_image] empty [tiny_image]
           (LibraryError "empty input")); try reflexivity.
  - repeat constructor.
  - repeat split.
Defined.

(** ** More on the image-container codecs *)

(** X19.  After a successful selection of jpeg or jpg the dictionary
    still holds [level], next to [ext = ".jpg"] and [params]; the
    resolved encode function reads [ext] and [params] only: it calls
    [cv2.imencode(".jpg", (img * 255).astype(uint8), params)] and
    returns the bytes of its buffer, whatever the success flag. *)
Theorem jpeg_encoding_call (L : Libs) (algo : string) (r : loc)
    (w w' : World) (d : dict) :
  lower algo = "jpeg" \/ lower algo = "jpg" ->
  heap w !! r = Some d ->
  select_algo L algo r w = (Ok tt, w') ->
  exists (kwargs : dict) (params : list pyval),
    heap w' !! r = Some kwargs /\
    kwargs !! "ext" = Some (VStr ".jpg") /\
    kwargs !! "params" = Some (VTuple params) /\
    kwargs !! "level" = d !! "level" /\
    _comp_met (self w') = Some (_decorate_cv_compress L (cv2_imencode L)) /\
    forall img : ndarray,
      _decorate_cv_compress L (cv2_imencode L) img kwargs =
        match cv2_imencode L (VStr ".jpg") (scale255_astype_uint8 L img)
                (VTuple params)
        with
        | Ok (_, buf) => Ok (data buf)
        | Raise e => Raise e
        end.
Proof.
  intros Ha Hr H.
  rewrite (select_algo_jpeg_run L algo r w d Hr Ha) in H. cbv zeta in H.
  destruct (d !! "level") as [level|] eqn:Hl; [|discriminate].
  destruct (py_mul_int level 10) as [q|e] eqn:Hq; [|discriminate].
  destruct (jpeg_params d q) as [ps|e] eqn:Hp; [|discriminate].
  injection H as <-.
  exists (<["params" := VTuple ps]> (<["ext" := VStr ".jpg"]> d)), ps.
  cbn [heap self installed _comp_met].
  assert (He : (<["params" := VTuple ps]> (<["ext" := VStr ".jpg"]> d)) !! "ext"
               = Some (VStr ".jpg")).
  { rewrite lookup_insert_ne by done. apply lookup_insert_eq. }
  assert (Hps : (<["params" := VTuple ps]> (<["ext" := VStr ".jpg"]> d))
                  !! "params" = Some (VTuple ps)) by apply lookup_insert_eq.
  split; [apply lookup_insert_eq|]. split; [exact He|]. split; [exact Hps|].
  split; [by rewrite !lookup_insert_ne by done|]. split; [reflexivity|].
  intros img. by apply cv_compress_run.
Qed.

Lemma jpeg_encoding_call_witness :
  let d : dict := {[ "level" := VInt 8 ]} in
  let w' := snd (select_algo (demo_libs []) "jpeg" 1 (ex_world d)) in
  exists (kwargs : dict) (params : list pyval),
    heap w' !! 1%positive = Some kwargs /\
    kwargs !! "ext" = Some (VStr ".jpg") /\
    kwargs !! "params" = Some (VTuple params) /\
    kwargs !! "level" = d !! "level" /\
    _comp_met (self w')
      = Some (_decorate_cv_compress (demo_libs [])
                (cv2_imencode (demo_libs []))) /\
    forall img : ndarray,
      _decorate_cv_compress (demo_libs []) (cv2_imencode (demo_libs []))
        img kwargs =
        match cv2_imencode (demo_libs []) (VStr ".jpg")
                (scale255_astype_uint8 (demo_libs []) img) (VTuple params)
        with
        | Ok (_, buf) => Ok (data buf)
        | Raise e => Raise e
        end.
Proof.
  intros d w'.
  apply (jpeg_encoding_call (demo_libs []) "jpeg" 1%positive (ex_world d) w' d).
  - left. reflexivity.
  - reflexivity.
  - vm_compute. reflexivity.
Defined.

(** X20.  The decoder of the image-container family accepts every
    artifact: it views the bytes as a one-dimensional uint8 array,
    which no length can fail, and returns what
    [cv2.imdecode(., IMREAD_UNCHANGED)] returns, [None] included; it
    imposes no shape, so it never raises for a size as the byte-stream
    decoder does. *)
Theorem cv_decompress_passes_through
    (func : ndarray -> Z -> result (option ndarray)) (art : bytes) :
  _decorate_cv_decompress func art =
    func (mk_ndarray uint8 [nbytes art] art) cv2.IMREAD_UNCHANGED /\
  (func (mk_ndarray uint8 [nbytes art] art) cv2.IMREAD_UNCHANGED = Ok None ->
   _decorate_cv_decompress func art = Ok None).
Proof.
  assert (H : _decorate_cv_decompress func art =
              func (mk_ndarray uint8 [nbytes art] art) cv2.IMREAD_UNCHANGED).
  { unfold _decorate_cv_decompress, np.frombuffer.
    change (itemsize uint8) with 1%N.
    rewrite N.mod_1_r, N.div_1_r. cbn [N.eqb].
    unfold mbind, result_bind, mret, result_ret.
    by destruct (func _ _). }
  split; [exact H | by intros <-].
Qed.

(** ** The settings are shared *)

(** X21.  The [Compressor] holds the caller's dictionary, not a copy of
    it, and [compress] reads it at every call: an entry the caller
    stores in the dictionary after the selection is among the keyword
    arguments of the next encoding, whose artifact is the one returned
    and, where the destination opens and takes the write, written. *)
Theorem later_changes_of_the_settings_reach_the_codec (L : Libs) (w : World)
    (comp : comp_met_t) (r : loc) (kwargs : dict) (id : string)
    (rest : list string) (key : string) (v : pyval) (img : ndarray)
    (a : bytes) :
  _comp_met (self w) = Some comp ->
  _settings (self w) = Some r ->
  heap w !! r = Some kwargs ->
  img_ids (self w) = Some (id :: rest) ->
  comp img (<[key := v]> kwargs) = Ok a ->
  write_ok L (fs w) (path_str (path_div (image_dir (self w)) id)) a ->
  (dict_setitem r key v;; compress L img) w =
    (Ok a,
     mk_World (<[r := <[key := v]> kwargs]> (heap w))
       (<[path_str (path_div (image_dir (self w)) id) := a]> (fs w))
       (self w)).
Proof.
  intros Hc Hs Hh Hi Ha Hw.
  rewrite bind_run, (setitem_run r key v w kwargs Hh). cbv beta iota.
  by rewrite (compress_run L _ comp r (<[key := v]> kwargs) id rest img a);
    [|done|done|cbn [heap with_heap]; apply lookup_insert_eq|done|done|done].
Qed.

Lemma later_changes_of_the_settings_reach_the_codec_witness :
  let w := mk_World {[ 1%positive := {[ "level" := VInt 9 ]} ]} ∅
             (mk_Compressor ["res"] ["res"; "rendering"] ".exr" []
                (Some ["0001"])
                (Some (_decorate_builtin_compress (zlib_compress probe_libs)))
                (Some (_decorate_builtin_decompress
                         (zlib_decompress probe_libs)))
                (Some 1%positive)) in
  (dict_setitem 1 "level" (VInt 1);; compress probe_libs tiny_image) w =
    (Ok [x01],
     mk_World (<[1%positive := <["level" := VInt 1]> {[ "level" := VInt 9 ]}]>
                 (heap w))
       (<["res/rendering/0001" := [x01]]> (fs w))
       (self w)).
Proof.
  intros w.
  apply (later_changes_of_the_settings_reach_the_codec probe_libs w
           (_decorate_builtin_compress (zlib_compress probe_libs))
           1%positive {[ "level" := VInt 9 ]} "0001" [] "level" (VInt 1)
           tiny_image [x01]); try reflexivity.
  split; reflexivity.
Defined.

Lemma cv_decompress_passes_through_witness :
  _decorate_cv_decompress (cv2_imdecode (demo_libs [])) [x00; x01] = Ok None.
Proof.
  apply (proj2 (cv_decompress_passes_through (cv2_imdecode (demo_libs []))
                  [x00; x01])).
  reflexivity.
Defined.
